(** * Document workflow of the core API: versions, comments, likes

    A shallow embedding of the route handlers of [api/document.js]
    (documents, versions, comments, likes) over an explicit model of the
    Mongo collections they read and write, and the properties of the
    workflow proved about them. *)

From Stdlib Require Import ZArith String.
From stdpp Require Import gmap strings list fin_maps.

Local Open Scope string_scope.
Local Open Scope Z_scope.

(** ** Data model *)

(** Mongo [ObjectId]s.  Route parameters and body fields holding ids are
    taken after the cast to [ObjectId]. *)
Abbreviation Id := nat.

(** Milliseconds since the epoch, the [valueOf] of a JS [Date]. *)
Abbreviation Time := Z.

(** The value found under [content.closingDate].  The handlers use it in
    two ways: as a condition ([if (content.closingDate)]) and as the
    argument of [new Date(...)]. *)
Inductive jsDate : Type :=
  | JsUndefined                 (* the property is absent *)
  | JsNull
  | JsDateValue (t : Time)      (* a date (or date string) denoting time [t] *)
  | JsNotADate (truthy : bool). (* a value [new Date] cannot parse *)

(** [!!x] *)
Definition truthy (d : jsDate) : bool :=
  match d with
  | JsUndefined | JsNull => false
  | JsDateValue _ => true
  | JsNotADate b => b
  end.

(** [new Date(x).valueOf()]; [None] stands for [NaN] (Invalid Date). *)
Definition newDate (d : jsDate) : option Time :=
  match d with
  | JsUndefined => None
  | JsNull => Some 0
  | JsDateValue t => Some t
  | JsNotADate _ => None
  end.

(** [a < b] on the time values of two dates: false as soon as one of
    them is [NaN]. *)
Definition date_lt (a b : option Time) : bool :=
  match a, b with
  | Some x, Some y => bool_decide (x < y)
  | _, _ => false
  end.

(** [a > b] *)
Definition date_gt (a b : option Time) : bool := date_lt b a.

Record content : Type := Content {
  title : string;
  brief : string;
  closingDate : jsDate;
  fields : list (string * string)
}.

Record user : Type := User {
  user_id : Id;
  roles : list string
}.

Record document : Type := Document_ {
  doc_author : Id;
  doc_customForm : Id;
  doc_published : bool;
  doc_closed : option bool;       (* stored flag, as sent by the caller *)
  doc_currentVersion : Id;
  doc_commentsCount : nat
}.

(** The [version] number is a JS number that only ever gets [+ 1]; it
    is taken as an integer.  The two agree within 2^53; beyond, the JS
    sum is rounded. *)
Record documentVersion : Type := DocumentVersion_ {
  ver_document : Id;
  ver_version : Z;
  ver_content : option content;   (* [None]: stored without content *)
  ver_contributions : list Id
}.

(** Positional metadata anchoring a comment inside a rich-text field: an
    object for the handlers, which only pass it along. *)
Inductive decoration : Type :=
  | Decoration (anchor : string).

Record comment : Type := Comment_ {
  com_user : Id;
  com_document : Id;
  com_version : Id;
  com_field : string;
  com_content : string;
  com_decoration : option decoration;
  com_resolved : bool;
  com_reply : option string
}.

Record like : Type := Like_ {
  like_user : Id;
  like_comment : Id
}.

Record formFields : Type := FormFields {
  allowComments : list string;
  properties : list string
}.

Record customForm : Type := CustomForm_ {
  cf_slug : string;
  cf_fields : formFields
}.

Record accountablePermissions : Type := AccountablePermissions {
  documentCreationLimit : Z
}.

Record communityPermissions : Type := CommunityPermissions {
  accountable : accountablePermissions
}.

Record community : Type := Community_ {
  permissions : communityPermissions
}.

(** A stored object together with its [_id], as the db-api returns it. *)
Record row (A : Type) : Type := Row {
  _id : Id;
  data : A
}.
Arguments Row {A} _id data.
Arguments _id {A} r.
Arguments data {A} r.

(** What [services/notifier.js] posts to the notifier service. *)
Inductive event : Type :=
  | SendEmail (type : string) (comment : Id)
  | SetDocumentCloses (id : Id) (closingDate : jsDate).

(** The collections, each keyed by [_id], and the requests sent to the
    notifier so far (latest first). *)
Record store : Type := Store {
  documents : gmap nat document;
  versions : gmap nat documentVersion;
  comments : gmap nat comment;
  likes : gmap nat like;
  customForms : gmap nat customForm;
  theCommunity : community;
  outbox : list event
}.

Definition set_documents (f : gmap nat document → gmap nat document) (s : store) : store :=
  Store (f (documents s)) (versions s) (comments s) (likes s)
        (customForms s) (theCommunity s) (outbox s).

Definition set_versions (f : gmap nat documentVersion → gmap nat documentVersion) (s : store) : store :=
  Store (documents s) (f (versions s)) (comments s) (likes s)
        (customForms s) (theCommunity s) (outbox s).

Definition set_comments (f : gmap nat comment → gmap nat comment) (s : store) : store :=
  Store (documents s) (versions s) (f (comments s)) (likes s)
        (customForms s) (theCommunity s) (outbox s).

Definition set_likes (f : gmap nat like → gmap nat like) (s : store) : store :=
  Store (documents s) (versions s) (comments s) (f (likes s))
        (customForms s) (theCommunity s) (outbox s).

Definition set_outbox (f : list event → list event) (s : store) : store :=
  Store (documents s) (versions s) (comments s) (likes s)
        (customForms s) (theCommunity s) (f (outbox s)).

(** ** Errors and the handler monad *)

(** The errors of [services/errors] the handlers throw, and the
    [TypeError] raised by reading a property of [null] or [undefined]. *)
Inductive error : Type :=
  | ErrNotFound
  | ErrForbidden
  | ErrNotAuthorized
  | ErrBadRequest
  | ErrInvalidParam
  | ErrClosed
  | TypeError.

Inductive outcome (A : Type) : Type :=
  | Returns (a : A)
  | Throws (e : error).
Arguments Returns {A} a.
Arguments Throws {A} e.

(** An [async] computation over the database: it ends by returning or
    by throwing, and the writes made before a throw stay. *)
Definition M (A : Type) : Type := store → outcome A * store.

Definition ret {A} (a : A) : M A := λ s, (Returns a, s).

Definition throw {A} (e : error) : M A := λ s, (Throws e, s).

Definition bind {A B} (c : M A) (k : A → M B) : M B :=
  λ s, match c s with
       | (Returns a, s') => k a s'
       | (Throws e, s') => (Throws e, s')
       end.

Definition gets {A} (f : store → A) : M A := λ s, (Returns (f s), s).

Definition modify (f : store → store) : M unit := λ s, (Returns tt, f s).

(** [x.p] where [x] may be [null]/[undefined]. *)
Definition deref {A} (x : option A) : M A :=
  match x with
  | Some a => ret a
  | None => throw TypeError
  end.

Declare Scope handler_scope.
Delimit Scope handler_scope with handler.
Bind Scope handler_scope with M.
Notation "'let!' x ':=' c 'in' k" := (bind c (λ x, k))
  (at level 10, x pattern, c at level 100, k at level 200) : handler_scope.
Notation "c ';;' k" := (bind c (λ _, k))
  (at level 100, k at level 200, right associativity) : handler_scope.
Local Open Scope handler_scope.

(** ** The notifier service ([services/notifier.js])

    Both functions build a payload and post it without waiting for the
    answer; a failure is only logged.  The model records the request. *)
Module notifier.

Definition sendCommentNotification (notificationType : string) (commentId : Id) : M unit :=
  modify (set_outbox (cons (SendEmail notificationType commentId))).

Definition setDocumentClosesNotification (documentId : Id) (closingDate : jsDate) : M unit :=
  modify (set_outbox (cons (SetDocumentCloses documentId closingDate))).

End notifier.

(** ** The db-api layer

    The modules [db-api/document], [db-api/documentVersion],
    [db-api/comment], [db-api/like], [db-api/customForm] and
    [db-api/community] are called by the handlers; their code lives
    outside the route modules, so each function below is written from
    the design document of the workflow. *)

(** A fresh [ObjectId] for a collection. *)
Definition freshId {A} (m : gmap nat A) : Id := fresh (dom m).

Module Community.

(** Modelled from the spec: [Community.get] of [db-api/community] is
    missing; the Community Policy Provider yields the community with
    its per-role creation limit. *)
Definition get : M community := gets theCommunity.

End Community.

Module CustomForm.

(** Modelled from the spec: [CustomForm.get] of [db-api/customForm] is
    missing; the Custom Form Provider resolves a reference to a form
    or to nothing.  Here the reference is an [_id]. *)
Definition get (id : Id) : M (option (row customForm)) :=
  gets (λ s, Row id <$> customForms s !! id).

(** Modelled from the spec: the same provider, the reference being a
    slug. *)
Definition getBySlug (slug : string) : M (option (row customForm)) :=
  gets (λ s,
    (λ p, Row p.1 p.2) <$>
      ((list_find (λ p : nat * customForm, cf_slug p.2 = slug)
                  (map_to_list (customForms s))) ≫= (λ r, Some r.2))).

End CustomForm.

(** A document as [Document.get] returns it: [currentVersion] is
    populated ([None] when the reference does not resolve), and of the
    populated [author] the handlers read the [_id] only. *)
Record populated : Type := Populated {
  pd_id : Id;
  pd_author : Id;
  pd_customForm : Id;
  pd_published : bool;
  pd_closed : option bool;
  pd_currentVersion : option (row documentVersion);
  pd_commentsCount : nat
}.

(** The fields [Document.update] is given. *)
Record documentPatch : Type := DocumentPatch {
  p_published : option bool;
  p_closed : option bool;
  p_currentVersion : option Id
}.

Module Document.

(** Modelled from the spec: the populated view [Document.get] yields. *)
Definition populate (s : store) (id : Id) (d : document) : populated :=
  Populated id (doc_author d) (doc_customForm d) (doc_published d) (doc_closed d)
            (Row (doc_currentVersion d) <$> versions s !! doc_currentVersion d)
            (doc_commentsCount d).

(** Modelled from the spec: [Document.get] of [db-api/document] is
    missing; it yields the document or nothing ([NotFound] is the
    caller's to throw). *)
Definition get (id : Id) : M (option populated) :=
  gets (λ s, populate s id <$> documents s !! id).

(** Modelled from the spec: [countAuthorDocuments] is missing; the
    count reflects all documents of the author regardless of their
    published state. *)
Definition countAuthorDocuments (author : Id) : M Z :=
  gets (λ s, Z.of_nat (size (filter (λ p : nat * document, doc_author p.2 = author)
                                    (documents s)))).

(** Modelled from the spec: [Document.create] is missing; it creates
    the document (published = false) together with its initial
    version (version = 1). *)
Definition create (author : Id) (c : content) (form : row customForm) : M (row document) :=
  let! d := gets (λ s, freshId (documents s)) in
  let! v := gets (λ s, freshId (versions s)) in
  let newDocument := Document_ author (_id form) false None v 0%nat in
  modify (set_versions <[v := DocumentVersion_ d 1 (Some c) []]>);;
  modify (set_documents <[d := newDocument]>);;
  ret (Row d newDocument).

(** Modelled from the spec: applying the patch of [Document.update]. *)
Definition patch (p : documentPatch) (d : document) : document :=
  Document_ (doc_author d) (doc_customForm d)
            (default (doc_published d) (p_published p))
            (match p_closed p with Some b => Some b | None => doc_closed d end)
            (default (doc_currentVersion d) (p_currentVersion p))
            (doc_commentsCount d).

(** Modelled from the spec: [Document.update] is missing; the optional
    [published], [closed] and [currentVersion] of the patch replace
    the stored ones, a field not given is left as it is. *)
Definition update (id : Id) (p : documentPatch) : M (row document) :=
  let! d := gets (λ s, documents s !! id) in
  match d with
  | None => throw ErrNotFound
  | Some d =>
      modify (set_documents <[id := patch p d]>);;
      ret (Row id (patch p d))
  end.

(** Modelled from the spec: the counter step of [Document.addComment]. *)
Definition incrementComments (d : document) : document :=
  Document_ (doc_author d) (doc_customForm d) (doc_published d) (doc_closed d)
            (doc_currentVersion d) (S (doc_commentsCount d)).

(** Modelled from the spec: [Document.addComment] is missing; it
    increments [commentsCount] and has no other effect. *)
Definition addComment (id : Id) : M unit :=
  modify (set_documents (alter incrementComments id)).

End Document.

(** The aggregate of [DocumentVersion.countContributions]. *)
Record contributionsData : Type := ContributionsData {
  contributionsCount : nat;
  contributorsCount : nat
}.

Module DocumentVersion.

(** Modelled from the spec: [DocumentVersion.create] of
    [db-api/documentVersion] is missing; the data is stored as given
    (the content is accepted as it is, the form schema is not consulted
    again) under a fresh id, and the created version is returned. *)
Definition create (newVersionData : documentVersion) (form : option (row customForm))
  : M (row documentVersion) :=
  let! v := gets (λ s, freshId (versions s)) in
  modify (set_versions <[v := newVersionData]>);;
  ret (Row v newVersionData).

(** Modelled from the spec: the in-place edit of [DocumentVersion.update]. *)
Definition amend (c : option content) (v : documentVersion) : documentVersion :=
  DocumentVersion_ (ver_document v) (ver_version v) c (ver_contributions v).

(** Modelled from the spec: [DocumentVersion.update] is missing; it
    replaces [content] in place and changes neither the [version]
    number nor the [contributions]. *)
Definition update (id : Id) (c : option content) (form : option (row customForm))
  : M (row documentVersion) :=
  let! v := gets (λ s, versions s !! id) in
  match v with
  | None => throw ErrNotFound
  | Some v =>
      modify (set_versions <[id := amend c v]>);;
      ret (Row id (amend c v))
  end.

(** Modelled from the spec: the comments merged into the versions of a
    document, over all its versions. *)
Definition merged (s : store) (document : Id) : list Id :=
  mjoin ((λ p : nat * documentVersion, ver_contributions p.2) <$>
         map_to_list (filter (λ p : nat * documentVersion, ver_document p.2 = document)
                             (versions s))).

(** Modelled from the spec: [countContributions] is missing; it yields
    the total of merged contributions and the number of distinct
    contributing users over all versions of the document. *)
Definition countContributions (document : Id) : M contributionsData :=
  gets (λ s,
    let ids := merged s document in
    let users : gset nat :=
      list_to_set (omap (λ i, com_user <$> comments s !! i) ids) in
    ContributionsData (length ids) (size users)).

End DocumentVersion.

(** The object the comment route hands to [Comment.create]. *)
Record commentBody : Type := CommentBody {
  cb_user : Id;
  cb_document : Id;
  cb_version : Id;
  cb_field : string;
  cb_content : string;
  cb_decoration : option decoration
}.

Module Comment.

(** Modelled from the spec: [Comment.create] of [db-api/comment] is
    missing; the comment is stored under a fresh id with
    [resolved = false], the optional decoration and no reply. *)
Definition create (b : commentBody) : M (row comment) :=
  let! c := gets (λ s, freshId (comments s)) in
  let newComment :=
    Comment_ (cb_user b) (cb_document b) (cb_version b) (cb_field b)
             (cb_content b) (cb_decoration b) false None in
  modify (set_comments <[c := newComment]>);;
  ret (Row c newComment).

(** Modelled from the spec: [Comment.getAll] is missing; for the filter
    by id-set it yields the stored comments whose [_id] is in the set. *)
Definition getAll (ids : list Id) (withReplies : bool) : M (list (row comment)) :=
  gets (λ s, (λ p : nat * comment, Row p.1 p.2) <$>
             map_to_list (filter (λ p : nat * comment, p.1 ∈ ids) (comments s))).

(** Modelled from the spec: the flag [Comment.resolve] sets. *)
Definition markResolved (c : comment) : comment :=
  Comment_ (com_user c) (com_document c) (com_version c) (com_field c)
           (com_content c) (com_decoration c) true (com_reply c).

(** Modelled from the spec: [Comment.resolve] is missing; it sets
    [resolved = true] on the comment of the given [_id], also when it
    is set already; a comment that does not exist is [NotFound]. *)
Definition resolve (id : Id) : M (row comment) :=
  let! c := gets (λ s, comments s !! id) in
  match c with
  | None => throw ErrNotFound
  | Some c =>
      modify (set_comments <[id := markResolved c]>);;
      ret (Row id (markResolved c))
  end.

(** Modelled from the spec: the field [Comment.reply] writes. *)
Definition withReply (text : string) (c : comment) : comment :=
  Comment_ (com_user c) (com_document c) (com_version c) (com_field c)
           (com_content c) (com_decoration c) (com_resolved c) (Some text).

(** Modelled from the spec: [Comment.reply] is missing; it overwrites
    any prior reply of the comment of the given [_id]; a comment that
    does not exist is [NotFound]. *)
Definition reply (id : Id) (text : string) : M (row comment) :=
  let! c := gets (λ s, comments s !! id) in
  match c with
  | None => throw ErrNotFound
  | Some c =>
      modify (set_comments <[id := withReply text c]>);;
      ret (Row id (withReply text c))
  end.

(** Modelled from the spec: the field [Comment.updateDecorations] writes. *)
Definition withDecoration (d : decoration) (c : comment) : comment :=
  Comment_ (com_user c) (com_document c) (com_version c) (com_field c)
           (com_content c) (Some d) (com_resolved c) (com_reply c).

(** Modelled from the spec: one entry of the decorations payload,
    applied to the comment it names if that comment belongs to the
    version. *)
Definition decorate (version : Id) (cs : gmap nat comment) (entry : Id * decoration)
  : gmap nat comment :=
  match cs !! entry.1 with
  | Some c => if decide (com_version c = version)
              then <[entry.1 := withDecoration entry.2 c]> cs
              else cs
  | None => cs
  end.

(** Modelled from the spec: [Comment.updateDecorations] is missing; it
    rewrites the [decoration] of the comments of a version, keyed by
    comment id inside the payload; comments not mentioned are left
    untouched. *)
Definition updateDecorations (version : Id) (decorations : list (Id * decoration)) : M unit :=
  modify (set_comments (λ cs, foldl (decorate version) cs decorations)).

(** Modelled from the spec: [Comment.count] is missing; for the
    contextual-comments aggregate it counts the comments of a document
    that have a decoration. *)
Definition count (document : Id) : M nat :=
  gets (λ s, size (filter (λ p : nat * comment,
                             com_document p.2 = document ∧ com_decoration p.2 ≠ None)
                          (comments s))).

End Comment.

Module Like.

(** Modelled from the spec: [Like.get] of [db-api/like] is missing; it
    yields the like of the pair (user, comment) or none. *)
Definition get (user comment : Id) : M (option (row like)) :=
  gets (λ s,
    (list_find (λ p : nat * like, like_user p.2 = user ∧ like_comment p.2 = comment)
               (map_to_list (likes s))) ≫= (λ r, Some (Row r.2.1 r.2.2))).

(** Modelled from the spec: [Like.create] is missing; it stores a like
    for the pair under a fresh id, and where one exists already it is a
    no-op returning the existing row, so that no duplicate is made. *)
Definition create (user comment : Id) : M (row like) :=
  let! existing := get user comment in
  match existing with
  | Some l => ret l
  | None =>
      let! i := gets (λ s, freshId (likes s)) in
      modify (set_likes <[i := Like_ user comment]>);;
      ret (Row i (Like_ user comment))
  end.

(** Modelled from the spec: [Like.remove] is missing; it deletes the
    like of the given [_id]. *)
Definition remove (id : Id) : M unit :=
  modify (set_likes (delete id)).

End Like.

(** ** The route handlers ([api/document.js])

    Each handler is the [async (req, res, next)] function of its route.
    It receives what it reads of the request: the session user
    ([req.session.user], [None] when nobody is logged in), the route
    parameters, the body, and the time [new Date()] yields.  It returns
    what it sends with [res.json]/[res.send]; a thrown error is what
    [next(err)] receives.  The middlewares mounted in front of a handler
    ([middlewares.checkId], [auth.keycloak.protect]) are not part of
    it. *)

Record postBody : Type := PostBody {
  post_customForm : string;            (* a slug *)
  post_content : content               (* a body without content is none of these *)
}.

Record putBody : Type := PutBody {
  put_published : option bool;
  put_closed : option bool;
  put_decorations : option (list (Id * decoration));
  put_content : option content;
  put_contributions : option (list Id)   (* ids that [ObjectId] accepts *)
}.

Record commentRequest : Type := CommentRequest {
  req_field : string;
  req_content : string;
  req_decoration : option decoration
}.

Record getPayload : Type := GetPayload {
  payload_document : populated;
  payload_isAuthor : bool;
  payload_contributionsCount : option nat;
  payload_contributorsCount : option nat;
  payload_contextualCommentsCount : option nat
}.

(** [req.session.user._id.equals(document.author._id)] *)
Definition equals (u : user) (d : populated) : bool :=
  bool_decide (user_id u = pd_author d).

(** [document.closed = isClosed] on the object read from the database;
    nothing is saved. *)
Definition setClosed (isClosed : bool) (d : populated) : populated :=
  Populated (pd_id d) (pd_author d) (pd_customForm d) (pd_published d)
            (Some isClosed) (pd_currentVersion d) (pd_commentsCount d).

(** [document.currentVersion.content.closingDate] *)
Definition currentClosingDate (d : populated) : M jsDate :=
  let! currentVersion := deref (pd_currentVersion d) in
  let! c := deref (ver_content (data currentVersion)) in
  ret (closingDate c).

(** [array.forEach(f)] *)
Fixpoint forEach {A} (l : list A) (f : A → M unit) : M unit :=
  match l with
  | [] => ret tt
  | x :: l' => f x;; forEach l' f
  end.

(** Truth value of a string: only the empty string is falsy. *)
Definition truthyString (x : string) : bool :=
  match x with
  | EmptyString => false
  | String _ _ => true
  end.

(** [!array.find((x) => x === field)]: [find] yields the element found
    or [undefined], and [!] negates its truth value. *)
Definition notFound (array : list string) (field : string) : bool :=
  match List.find (λ x, String.eqb x field) array with
  | Some x => negb (truthyString x)
  | None => true
  end.

(** POST /documents *)
Definition postDocument (session : option user) (body : postBody) : M (row document) :=
  let! community := Community.get in
  let! u := deref session in
  let! documentsCount := Document.countAuthorDocuments (user_id u) in
  if bool_decide (documentsCount >= documentCreationLimit (accountable (permissions community)))
  then throw ErrNotAuthorized
  else
    let! customForm := CustomForm.getBySlug (post_customForm body) in
    match customForm with
    | None => throw ErrBadRequest
    | Some customForm =>
        let! newDocument := Document.create (user_id u) (post_content body) customForm in
        notifier.setDocumentClosesNotification (_id newDocument)
                                               (closingDate (post_content body));;
        ret newDocument
    end.

(** GET /documents/:id *)
Definition getDocument (now : Time) (session : option user) (id : Id) : M getPayload :=
  let! document := Document.get id in
  match document with
  | None => throw ErrNotFound
  | Some document =>
      let isTheAuthor :=
        match session with Some u => equals u document | None => false end in
      let! closing := currentClosingDate document in
      let isClosed := date_gt (Some now) (newDate closing) in
      if negb (pd_published document) && negb isTheAuthor
      then throw ErrForbidden
      else
        let document := setClosed isClosed document in
        if isClosed
        then
          let! contributionsData := DocumentVersion.countContributions id in
          let! contextualCommentsCount := Comment.count id in
          ret (GetPayload document isTheAuthor
                          (Some (contributionsCount contributionsData))
                          (Some (contributorsCount contributionsData))
                          (Some contextualCommentsCount))
        else ret (GetPayload document isTheAuthor None None None)
  end.

(** PUT /documents/:id *)
Definition putDocument (session : option user) (id : Id) (body : putBody) : M (row document) :=
  let! document := Document.get id in
  match document with
  | None => throw ErrNotFound
  | Some document =>
      let! u := deref session in
      if negb (equals u document)
      then throw ErrForbidden
      else
        match put_decorations body with
        | Some (entry :: entries) =>
            let! currentVersion := deref (pd_currentVersion document) in
            Comment.updateDecorations (_id currentVersion) (entry :: entries)
        | _ => ret tt
        end;;
        let newDataDocument := DocumentPatch (put_published body) (put_closed body) None in
        let! customForm := CustomForm.get (pd_customForm document) in
        let! newDataDocument :=
          match put_contributions body with
          | Some (contribution :: contributions) =>
              let! currentVersion := deref (pd_currentVersion document) in
              let newVersionData :=
                DocumentVersion_ (pd_id document)
                                 (ver_version (data currentVersion) + 1)
                                 (put_content body)
                                 (contribution :: contributions) in
              let! versionCreated := DocumentVersion.create newVersionData customForm in
              let! comments := Comment.getAll (contribution :: contributions) true in
              forEach comments (λ comment,
                notifier.sendCommentNotification "comment-contribution" (_id comment));;
              ret (DocumentPatch (put_published body) (put_closed body)
                                 (Some (_id versionCreated)))
          | _ =>
              let! currentVersion := deref (pd_currentVersion document) in
              DocumentVersion.update (_id currentVersion) (put_content body) customForm;;
              ret newDataDocument
          end in
        let! updatedDocument := Document.update id newDataDocument in
        match put_content body with
        | Some c =>
            if truthy (closingDate c)
            then notifier.setDocumentClosesNotification (_id updatedDocument) (closingDate c)
            else ret tt
        | None => ret tt
        end;;
        ret updatedDocument
  end.

(** POST /documents/:id/comments *)
Definition createComment (now : Time) (session : option user) (id : Id)
    (body : commentRequest) : M (row comment) :=
  let! u := deref session in
  let! document := Document.get id in
  match document with
  | None => throw ErrNotFound
  | Some document =>
      let! customForm := CustomForm.get (pd_customForm document) in
      let! customForm := deref customForm in
      if notFound (allowComments (cf_fields (data customForm))) (req_field body)
      then throw ErrInvalidParam
      else
        let! closing := currentClosingDate document in
        (if truthy closing
         then if date_lt (newDate closing) (Some now) then throw ErrClosed else ret tt
         else ret tt);;
        let! currentVersion := deref (pd_currentVersion document) in
        let commentBody :=
          CommentBody (user_id u) (pd_id document) (_id currentVersion)
                      (req_field body) (req_content body) (req_decoration body) in
        let! newComment := Comment.create commentBody in
        Document.addComment id;;
        ret newComment
  end.

(** POST /documents/:id/comments/:idComment/resolve *)
Definition resolveComment (session : option user) (id idComment : Id) : M (row comment) :=
  let! document := Document.get id in
  let! u := deref session in
  let! document := deref document in
  if negb (equals u document)
  then throw ErrForbidden
  else
    let! commentResolved := Comment.resolve idComment in
    notifier.sendCommentNotification "comment-resolved" idComment;;
    ret commentResolved.

(** POST /documents/:id/comments/:idComment/like *)
Definition likeComment (session : option user) (id idComment : Id) : M (option (row like)) :=
  let! u := deref session in
  let userId := user_id u in
  let! like := Like.get userId idComment in
  match like with
  | None =>
      let! document := Document.get id in
      let! isTheAuthor :=
        match session with
        | Some u' => let! document := deref document in ret (equals u' document)
        | None => ret false
        end in
      let! createdLike := Like.create userId idComment in
      (if isTheAuthor
       then notifier.sendCommentNotification "comment-liked" idComment
       else ret tt);;
      ret (Some createdLike)
  | Some like =>
      Like.remove (_id like);;
      ret None
  end.

(** POST /documents/:id/comments/:idComment/reply *)
Definition replyComment (session : option user) (id idComment : Id) (reply : string)
  : M (row comment) :=
  let! document := Document.get id in
  let! u := deref session in
  let! document := deref document in
  if negb (equals u document)
  then throw ErrForbidden
  else Comment.reply idComment reply.

(** ** The other copy of the document router

    The sources hold a second copy of the router, which knows no
    closing dates.  Its GET handler is the one above without the
    [closed] flag and the aggregates. *)
Module EarlierRouter.

Record getPayload : Type := GetPayload {
  payload_document : populated;
  payload_isAuthor : bool
}.

(** GET /documents/:id *)
Definition getDocument (session : option user) (id : Id) : M getPayload :=
  let! document := Document.get id in
  match document with
  | None => throw ErrNotFound
  | Some document =>
      let isTheAuthor :=
        match session with Some u => equals u document | None => false end in
      if negb (pd_published document) && negb isTheAuthor
      then throw ErrForbidden
      else ret (GetPayload document isTheAuthor)
  end.

End EarlierRouter.

(** ** Runs of the server *)

(** The requests the router serves. *)
Inductive request : Type :=
  | PostDocument (session : option user) (body : postBody)
  | GetDocument (now : Time) (session : option user) (id : Id)
  | PutDocument (session : option user) (id : Id) (body : putBody)
  | CreateComment (now : Time) (session : option user) (id : Id) (body : commentRequest)
  | ResolveComment (session : option user) (id idComment : Id)
  | LikeComment (session : option user) (id idComment : Id)
  | ReplyComment (session : option user) (id idComment : Id) (reply : string).

(** The database after a request has been served, whether the handler
    returned or threw. *)
Definition serve (r : request) (s : store) : store :=
  match r with
  | PostDocument session body => (postDocument session body s).2
  | GetDocument now session id => (getDocument now session id s).2
  | PutDocument session id body => (putDocument session id body s).2
  | CreateComment now session id body => (createComment now session id body s).2
  | ResolveComment session id idComment => (resolveComment session id idComment s).2
  | LikeComment session id idComment => (likeComment session id idComment s).2
  | ReplyComment session id idComment reply => (replyComment session id idComment reply s).2
  end.

(** A fresh installation: forms and community settings are in place,
    nothing has been authored yet. *)
Definition install (forms : gmap nat customForm) (c : community) : store :=
  Store ∅ ∅ ∅ ∅ forms c [].

(** The databases the server can be in: requests are served one after
    the other, each to completion. *)
Inductive reachable : store → Prop :=
  | reachable_install forms c : reachable (install forms c)
  | reachable_serve r s : reachable s → reachable (serve r s).

(** ** Invariants of the collections *)

(** The version chain of every document: [currentVersion] resolves to a
    version of the document that carries the highest number, every
    version belongs to a stored document, and the numbers of the
    versions of one document are pairwise distinct. *)
Record versionsWellFormed (s : store) : Prop := VersionsWellFormed {
  current_latest : ∀ id d, documents s !! id = Some d →
    ∃ v, versions s !! doc_currentVersion d = Some v ∧ ver_document v = id ∧
         ∀ j w, versions s !! j = Some w → ver_document w = id →
                ver_version w ≤ ver_version v;
  versions_owned : ∀ j w, versions s !! j = Some w →
    is_Some (documents s !! ver_document w);
  versions_distinct : ∀ i j v w,
    versions s !! i = Some v → versions s !! j = Some w →
    ver_document v = ver_document w → ver_version v = ver_version w → i = j
}.

(** [user] has a like on [comment]. *)
Definition liked (s : store) (user comment : Id) : Prop :=
  ∃ i, likes s !! i = Some (Like_ user comment).

(** At most one like per pair (user, comment). *)
Definition likesUnique (s : store) : Prop :=
  ∀ i j l, likes s !! i = Some l → likes s !! j = Some l → i = j.

(** The documents of an author, drafts and published ones alike. *)
Definition documentsOf (s : store) (author : Id) : gmap nat document :=
  filter (λ p : nat * document, doc_author p.2 = author) (documents s).

(** ** A small installation, used to run the handlers *)

Definition projectForm : customForm :=
  CustomForm_ "project" (FormFields ["brief"; "articles"] ["title"; "brief"; "articles"]).

Definition alice : user := User 1 ["accountable"].
Definition bob : user := User 2 [].
Definition carol : user := User 3 ["accountable"].

Definition openContent : content := Content "Water act" "On rivers" JsUndefined [].
Definition datedContent (t : Time) : content :=
  Content "Water act" "On rivers" (JsDateValue t) [].

Definition freshStore : store :=
  install {[ 7%nat := projectForm ]}
          (Community_ (CommunityPermissions (AccountablePermissions 2))).

(** Alice authors document 0, Bob comments on its brief (comment 0). *)
Definition draftStore : store :=
  serve (CreateComment 100 (Some bob) 0 (CommentRequest "brief" "Too vague" None))
        (serve (PostDocument (Some alice) (PostBody "project" openContent)) freshStore).

(** Carol authors document 1, Alice comments on its brief (comment 1). *)
Definition twoDocuments : store :=
  serve (CreateComment 100 (Some alice) 1 (CommentRequest "brief" "Agreed" None))
        (serve (PostDocument (Some carol) (PostBody "project" openContent)) draftStore).

(** Alice publishes document 0 with a closing date at time 50. *)
Definition closingStore : store :=
  serve (PutDocument (Some alice) 0
           (PutBody (Some true) None None (Some (datedContent 50)) None))
        twoDocuments.

(** Alice authors a second document (document 2): with the limit of 2
    she has none left. *)
Definition limitReached : store :=
  serve (PostDocument (Some alice) (PostBody "project" openContent)) closingStore.


(** Alice comments on the brief of her own document 0 (comment 1). *)
Definition ownComment : store :=
  serve (CreateComment 100 (Some alice) 0 (CommentRequest "brief" "Note to self" None))
        draftStore.

(** Bob likes comment 0. *)
Definition likedStore : store :=
  serve (LikeComment (Some bob) 0 0) draftStore.

(** What the version chains are made of: the document and the number of
    a version. *)
Definition link (v : documentVersion) : Id * Z := (ver_document v, ver_version v).

(** Two databases with the same version chains: the same pointers to
    current versions, and the same links under the same ids. *)
Definition sameChains (s s' : store) : Prop :=
  (∀ id, doc_currentVersion <$> documents s' !! id = doc_currentVersion <$> documents s !! id) ∧
  (∀ j, link <$> versions s' !! j = link <$> versions s !! j).

(** ** More about the runs of the server *)

(** The error a handler ended with, if it threw. *)
Definition thrown {A} (o : outcome A) : option error :=
  match o with
  | Throws e => Some e
  | Returns _ => None
  end.

(** The error a request is answered with, if any. *)
Definition failure (r : request) (s : store) : option error :=
  match r with
  | PostDocument session body => thrown (postDocument session body s).1
  | GetDocument now session id => thrown (getDocument now session id s).1
  | PutDocument session id body => thrown (putDocument session id body s).1
  | CreateComment now session id body => thrown (createComment now session id body s).1
  | ResolveComment session id idComment => thrown (resolveComment session id idComment s).1
  | LikeComment session id idComment => thrown (likeComment session id idComment s).1
  | ReplyComment session id idComment reply =>
      thrown (replyComment session id idComment reply s).1
  end.

(** The comments made on a document. *)
Definition commentsOn (s : store) (id : Id) : gmap nat comment :=
  filter (λ p : nat * comment, com_document p.2 = id) (comments s).

(** Every comment is made on a stored document and against a stored
    version of that document, and the counter of a document is the
    number of comments made on it. *)
Record commentsWellFormed (s : store) : Prop := CommentsWellFormed {
  comments_anchored : ∀ i c, comments s !! i = Some c →
    is_Some (documents s !! com_document c) ∧
    ∃ w, versions s !! com_version c = Some w ∧ ver_document w = com_document c;
  comments_counted : ∀ id d, documents s !! id = Some d →
    doc_commentsCount d = size (commentsOn s id)
}.

(** The numbers of the versions: they start at 1, only version 1 has no
    contributions, and every number up to that of the current version
    of a document is carried by one of its versions. *)
Record versionsNumbered (s : store) : Prop := VersionsNumbered {
  numbered_from_one : ∀ j w, versions s !! j = Some w →
    1 ≤ ver_version w ∧ (ver_version w = 1 ↔ ver_contributions w = []);
  numbered_without_gaps : ∀ id d v,
    documents s !! id = Some d → versions s !! doc_currentVersion d = Some v →
    ∀ k, 1 ≤ k ≤ ver_version v →
         ∃ j w, versions s !! j = Some w ∧ ver_document w = id ∧ ver_version w = k
}.

(** ** Listing the comments of a document ([api/document.js]) *)

(** The conditions of a query on the comments collection; a condition
    that is [None] is not part of the query. *)
Record commentFilter : Type := CommentFilter {
  filter_document : option Id;
  filter_ids : option (list Id);          (* [_id: { $in: ... }] *)
  filter_field : option string;
  filter_resolved : option bool
}.

(** A stored comment satisfies every condition of the query. *)
Definition matches (q : commentFilter) (p : nat * comment) : Prop :=
  from_option (λ id, com_document p.2 = id) True (filter_document q) ∧
  from_option (λ ids, p.1 ∈ ids) True (filter_ids q) ∧
  from_option (λ f, com_field p.2 = f) True (filter_field q) ∧
  from_option (λ r, com_resolved p.2 = r) True (filter_resolved q).

#[global] Instance matches_dec q p : Decision (matches q p).
Proof.
  unfold matches.
  destruct (filter_document q), (filter_ids q), (filter_field q), (filter_resolved q);
    cbn; apply _.
Defined.

Module CommentListing.

(** Modelled from the spec: the projection [Comment.getAll] makes when
    it is called without replies: the reply is left out. *)
Definition project (withReplies : bool) (c : comment) : comment :=
  if withReplies then c
  else Comment_ (com_user c) (com_document c) (com_version c) (com_field c)
                (com_content c) (com_decoration c) (com_resolved c) None.

(** Modelled from the spec: [Comment.getAll] of [db-api/comment] is
    missing; it yields the stored comments that match the filter (by
    id-set, by field and resolved flag, by document), without their
    replies when [withReplies] is false. *)
Definition getAll (q : commentFilter) (withReplies : bool) : M (list (row comment)) :=
  gets (λ s, (λ p : nat * comment, Row p.1 (project withReplies p.2)) <$>
             map_to_list (filter (matches q) (comments s))).

End CommentListing.

Module LikeListing.

(** Modelled from the spec: [Like.getAll] of [db-api/like] is missing;
    called with a comment, it yields the likes that reference it. *)
Definition getAll (comment : Id) : M (list (row like)) :=
  gets (λ s, (λ p : nat * like, Row p.1 p.2) <$>
             map_to_list (filter (λ p : nat * like, like_comment p.2 = comment) (likes s))).

End LikeListing.

(** The query string of the listing: [ids] after the split at the
    commas and the cast of each piece ([Some []] stands for an [ids]
    that is there but empty), and [field]. *)
Record commentsQuery : Type := CommentsQuery {
  query_ids : option (list Id);
  query_field : option string
}.

(** Modelled from the spec: [utils.checkIfAtLeastOneQuery] of
    [services/utils] is missing; a listing with no filter supplied is
    refused, so the check holds when one of the keys is in the query. *)
Definition checkIfAtLeastOneQuery (query : commentsQuery) : bool :=
  bool_decide (is_Some (query_ids query)) || bool_decide (is_Some (query_field query)).

(** An entry of the listing: the comment, the number of its likes, and
    for a logged-in user whether that user likes it. *)
Record listedComment : Type := ListedComment {
  listed_comment : row comment;
  listed_likes : nat;
  listed_isLiked : option bool
}.

(** What the listing answers.  [errors.ErrMissingQuerystring] is thrown
    before the database is read; it is kept apart from the errors of
    the other routes. *)
Inductive commentsAnswer : Type :=
  | ErrMissingQuerystring (keys : list string)
  | Listed (results : list listedComment).

(** [Promise.all(array.map(fn))] *)
Fixpoint mapPromises {A B} (fn : A → M B) (array : list A) : M (list B) :=
  match array with
  | [] => ret []
  | x :: array' =>
      let! y := fn x in
      let! ys := mapPromises fn array' in
      ret (y :: ys)
  end.

(** The query the listing builds from the route and the query string. *)
Definition listingFilter (id : Id) (query : commentsQuery) : commentFilter :=
  let ids :=
    match query_ids query with
    | Some (i :: ids) => Some (i :: ids)
    | _ => None
    end in
  match query_field query with
  | Some field =>
      if truthyString field
      then CommentFilter (Some id) ids (Some field) (Some false)
      else CommentFilter (Some id) ids None None
  | None => CommentFilter (Some id) ids None None
  end.

(** GET /documents/:id/comments *)
Definition getSomeComments (session : option user) (id : Id) (query : commentsQuery)
  : M commentsAnswer :=
  if negb (checkIfAtLeastOneQuery query)
  then ret (ErrMissingQuerystring ["ids"; "field"])
  else
    let! comments := CommentListing.getAll (listingFilter id query) false in
    let! comments :=
      mapPromises (λ comment : row comment,
        let! likes := LikeListing.getAll (_id comment) in
        ret (ListedComment comment (length likes) None)) comments in
    let! comments :=
      match session with
      | Some u =>
          mapPromises (λ comment : listedComment,
            let! like := Like.get (user_id u) (_id (listed_comment comment)) in
            ret (ListedComment (listed_comment comment) (listed_likes comment)
                               (Some (bool_decide (is_Some like))))) comments
      | None => ret comments
      end in
    ret (Listed comments).

(** ** Comments in the other copy of the router *)

Module EarlierComments.

(** POST /documents/:id/comments *)
Definition createComment (session : option user) (id : Id) (body : commentRequest)
  : M (row comment) :=
  let! u := deref session in
  let! document := Document.get id in
  match document with
  | None => throw ErrNotFound
  | Some document =>
      let! customForm := CustomForm.get (pd_customForm document) in
      let! customForm := deref customForm in
      if notFound (allowComments (cf_fields (data customForm))) (req_field body)
      then throw ErrInvalidParam
      else
        let! currentVersion := deref (pd_currentVersion document) in
        let commentBody :=
          CommentBody (user_id u) (pd_id document) (_id currentVersion)
                      (req_field body) (req_content body) (req_decoration body) in
        let! newComment := Comment.create commentBody in
        Document.addComment id;;
        ret newComment
  end.

End EarlierComments.

(** Bob likes comment 0 and Carol does too; Alice resolves comment 0 and
    comments on her own document (comment 2, on the articles). *)
Definition busyStore : store :=
  serve (CreateComment 100 (Some alice) 0 (CommentRequest "articles" "Renumber" None))
    (serve (ResolveComment (Some alice) 0 0)
      (serve (LikeComment (Some carol) 0 0)
        (serve (LikeComment (Some bob) 0 0) twoDocuments))).

(** Alice sends a content for document 0 whose closing date is [null]. *)
Definition nullDateStore : store :=
  serve (PutDocument (Some alice) 0
           (PutBody None None None (Some (Content "Water act" "On rivers" JsNull [])) None))
        draftStore.

(** ** The update between its [await]s *)




(** ** Running the monad *)

(** Unfolds the monad and the accessors of the store, leaving the
    lookups in the collections to be rewritten. *)
Ltac exec :=
  cbv beta iota zeta delta [bind ret gets modify throw deref];
  cbn [documents versions comments likes customForms theCommunity outbox
       set_documents set_versions set_comments set_likes set_outbox
       _id data fst snd negb fmap option_fmap option_map
       Document.populate pd_id pd_author pd_customForm pd_published pd_closed
       pd_currentVersion pd_commentsCount].


Lemma bind_returns {A B} (c : M A) (k : A → M B) s a s' :
  c s = (Returns a, s') → bind c k s = k a s'.
Proof. intros H. unfold bind. by rewrite H. Qed.

Lemma Document_get_Some s id d :
  documents s !! id = Some d →
  Document.get id s = (Returns (Some (Document.populate s id d)), s).
Proof. intros H. unfold Document.get, gets. by rewrite H. Qed.

Lemma Document_get_None s id :
  documents s !! id = None → Document.get id s = (Returns None, s).
Proof. intros H. unfold Document.get, gets. by rewrite H. Qed.

Lemma CustomForm_get_Some s id f :
  customForms s !! id = Some f →
  CustomForm.get id s = (Returns (Some (Row id f)), s).
Proof. intros H. unfold CustomForm.get, gets. by rewrite H. Qed.

(** [find] over a list that does not hold the field finds nothing. *)
Lemma notFound_not_elem (array : list string) field :
  field ∉ array → notFound array field = true.
Proof.
  intros Hnot. unfold notFound.
  destruct (List.find _ array) as [x|] eqn:Hfind; [|done].
  apply List.find_some in Hfind as [Hin Heq].
  apply String.eqb_eq in Heq. subst x.
  exfalso. apply Hnot. by apply list_elem_of_In.
Qed.

(** A non-empty field of the list is found. *)
Lemma notFound_elem (array : list string) field :
  field ∈ array → field ≠ EmptyString → notFound array field = false.
Proof.
  intros Hin Hne. unfold notFound.
  destruct (List.find _ array) as [x|] eqn:Hfind.
  - apply List.find_some in Hfind as [_ Heq].
    apply String.eqb_eq in Heq. subst x. by destruct field.
  - apply list_elem_of_In in Hin.
    eapply List.find_none in Hfind; [|exact Hin].
    by rewrite String.eqb_refl in Hfind.
Qed.

(** ** The handlers on the small installation *)

(** Bob's comment on the brief of Alice's draft is counted on the
    document; Alice resolves it, Carol may not. *)
Example scenario_comment_then_resolve :
  doc_commentsCount <$> documents draftStore !! 0%nat = Some 1%nat ∧
  (resolveComment (Some alice) 0 0 draftStore).1
    = Returns (Row 0%nat (Comment_ 2 0 0 "brief" "Too vague" None true None)) ∧
  (resolveComment (Some carol) 0 0 draftStore).1 = Throws ErrForbidden.
Proof. by vm_compute. Qed.

(** An update that merges two comments makes version 2 the current one
    and notifies once per comment. *)
Example scenario_two_contributions :
  let body := PutBody None None None (Some openContent) (Some [0%nat; 1%nat]) in
  let s' := (putDocument (Some alice) 0 body twoDocuments).2 in
  (ver_version <$> versions s' !! 2%nat = Some 2 ∧
   doc_currentVersion <$> documents s' !! 0%nat = Some 2%nat) ∧
  outbox s' = SendEmail "comment-contribution" 0 :: SendEmail "comment-contribution" 1
                :: outbox twoDocuments.
Proof. by vm_compute. Qed.

(** ** Comments on fields that do not allow them *)

(** C3. On an existing document, a comment on a field that is not in
    the [allowComments] list of the document's custom form fails with
    [ErrInvalidParam] (InvalidParam) and leaves the database as it was,
    so no comment is stored; this holds for every acting user, whatever
    the roles and whether or not the user is the document's author. *)
Theorem createComment_not_commentable now (u : user) id body s d form :
  documents s !! id = Some d →
  customForms s !! doc_customForm d = Some form →
  req_field body ∉ allowComments (cf_fields form) →
  createComment now (Some u) id body s = (Throws ErrInvalidParam, s).
Proof.
  intros Hd Hf Hfield. unfold createComment.
  cbn [deref]. unfold ret at 1. rewrite (bind_returns _ _ _ u s) by done.
  rewrite (bind_returns _ _ _ _ _ (Document_get_Some _ _ _ Hd)).
  cbn [Document.populate pd_customForm].
  rewrite (bind_returns _ _ _ _ _ (CustomForm_get_Some _ _ _ Hf)).
  cbn [deref]. rewrite (bind_returns _ _ _ (Row (doc_customForm d) form) s) by done.
  cbn [data]. by rewrite notFound_not_elem.
Qed.

Lemma createComment_not_commentable_witness :
  createComment 100 (Some alice) 0 (CommentRequest "title" "Rename it" None) draftStore
  = (Throws ErrInvalidParam, draftStore).
Proof.
  apply (createComment_not_commentable 100 alice 0 _ draftStore
           (Document_ 1 7 false None 0 1) projectForm).
  - reflexivity.
  - reflexivity.
  - compute_done.
Defined.

(** ** Comments on closed documents *)

Lemma currentClosingDate_Some s id d v c :
  versions s !! doc_currentVersion d = Some v →
  ver_content v = Some c →
  currentClosingDate (Document.populate s id d) s = (Returns (closingDate c), s).
Proof.
  intros Hv Hc. unfold currentClosingDate, Document.populate, bind, deref, ret; cbn.
  rewrite Hv; cbn. by rewrite Hc.
Qed.

(** The claim C4 as it is worded does not hold: a comment on a field
    that does not allow comments, sent to a document whose closing date
    has passed, is refused with [ErrInvalidParam], not [ErrClosed]. *)
Lemma createComment_closed_counterexample :
  ¬ (∀ now (u : user) id body s d v c t,
       documents s !! id = Some d →
       versions s !! doc_currentVersion d = Some v →
       ver_content v = Some c →
       closingDate c = JsDateValue t →
       t < now →
       (createComment now (Some u) id body s).1 = Throws ErrClosed).
Proof.
  intros claim.
  specialize (claim 100 bob 0%nat (CommentRequest "title" "Rename it" None) closingStore
                    (Document_ 1 7 true None 0 1)
                    (DocumentVersion_ 0 1 (Some (datedContent 50)) [])
                    (datedContent 50) 50
                    eq_refl eq_refl eq_refl eq_refl eq_refl).
  vm_compute in claim. discriminate claim.
Qed.

(** C4 (amended). On an existing document whose form resolves and for a
    field found in [allowComments]: if the content of the current
    version carries a closing date strictly earlier than the current
    time, creating a comment fails with [ErrClosed] (Closed) and the
    database is left as it was.  If that content has no closing date,
    no comment creation on the document fails with [ErrClosed], whatever
    the field and the user, and for a field found in [allowComments]
    the comment is stored. *)
Theorem createComment_closed now (u : user) id body s d form v c :
  documents s !! id = Some d →
  customForms s !! doc_customForm d = Some form →
  versions s !! doc_currentVersion d = Some v →
  ver_content v = Some c →
  (∀ t, closingDate c = JsDateValue t → t < now →
        req_field body ∈ allowComments (cf_fields form) →
        req_field body ≠ EmptyString →
        createComment now (Some u) id body s = (Throws ErrClosed, s)) ∧
  (closingDate c = JsUndefined →
     (createComment now (Some u) id body s).1 ≠ Throws ErrClosed ∧
     (req_field body ∈ allowComments (cf_fields form) →
      req_field body ≠ EmptyString →
      ∃ newComment s',
        createComment now (Some u) id body s = (Returns newComment, s') ∧
        comments s !! _id newComment = None ∧
        comments s' !! _id newComment = Some (data newComment) ∧
        com_field (data newComment) = req_field body ∧
        com_document (data newComment) = id)).
Proof.
  intros Hd Hf Hv Hc.
  assert (Hrun : createComment now (Some u) id body s =
    if notFound (allowComments (cf_fields form)) (req_field body)
    then (Throws ErrInvalidParam, s)
    else
      ((if truthy (closingDate c)
        then if date_lt (newDate (closingDate c)) (Some now) then throw ErrClosed else ret tt
        else ret tt);;
       let! currentVersion := deref (pd_currentVersion (Document.populate s id d)) in
       let commentBody :=
         CommentBody (user_id u) id (_id currentVersion)
                     (req_field body) (req_content body) (req_decoration body) in
       let! newComment := Comment.create commentBody in
       Document.addComment id;;
       ret newComment) s).
  { unfold createComment.
    cbn [deref]. unfold ret at 1. rewrite (bind_returns _ _ _ u s) by done.
    rewrite (bind_returns _ _ _ _ _ (Document_get_Some _ _ _ Hd)).
    cbn [Document.populate pd_customForm].
    rewrite (bind_returns _ _ _ _ _ (CustomForm_get_Some _ _ _ Hf)).
    cbn [deref]. rewrite (bind_returns _ _ _ (Row (doc_customForm d) form) s) by done.
    cbn [data]. destruct (notFound _ _); [done|].
    by rewrite (bind_returns _ _ _ _ _ (currentClosingDate_Some _ id _ _ _ Hv Hc)). }
  split.
  - intros t Ht Hlt Hin Hne. rewrite Hrun, notFound_elem by done.
    rewrite Ht. cbn. unfold bind, throw. by rewrite bool_decide_eq_true_2.
  - intros Hundef. rewrite Hrun, Hundef. cbn [truthy].
    split.
    + destruct (notFound _ _); [done|].
      unfold bind, ret, deref, Document.populate; cbn. rewrite Hv. by cbn.
    + intros Hin Hne. rewrite notFound_elem by done.
      unfold bind, ret, deref, Document.populate, Comment.create, Document.addComment,
        gets, modify; cbn. rewrite Hv; cbn.
      eexists _, _. split; [reflexivity|]. cbn.
      split; [|split; [|done]].
      * apply not_elem_of_dom. apply is_fresh.
      * by rewrite lookup_insert_eq.
Qed.

Lemma createComment_closed_witness :
  createComment 100 (Some bob) 0 (CommentRequest "brief" "Too late?" None) closingStore
    = (Throws ErrClosed, closingStore) ∧
  ∃ newComment s',
    createComment 100 (Some carol) 0 (CommentRequest "brief" "In time" None) draftStore
      = (Returns newComment, s') ∧
    comments s' !! _id newComment = Some (data newComment).
Proof.
  split.
  - destruct (createComment_closed 100 bob 0%nat (CommentRequest "brief" "Too late?" None)
                closingStore (Document_ 1 7 true None 0 1) projectForm
                (DocumentVersion_ 0 1 (Some (datedContent 50)) []) (datedContent 50)
                eq_refl eq_refl eq_refl eq_refl) as [closed _].
    apply (closed 50); [reflexivity | lia | compute_done | discriminate].
  - destruct (createComment_closed 100 carol 0%nat (CommentRequest "brief" "In time" None)
                draftStore (Document_ 1 7 false None 0 1) projectForm
                (DocumentVersion_ 0 1 (Some openContent) []) openContent
                eq_refl eq_refl eq_refl eq_refl) as [_ open].
    destruct (open eq_refl) as [_ stored].
    destruct stored as (newComment & s' & Hrun & _ & Hstored & _);
      [compute_done | discriminate |].
    by exists newComment, s'.
Defined.

(** ** The creation limit *)

Lemma CustomForm_getBySlug_Some s i form :
  customForms s !! i = Some form →
  ∃ r, CustomForm.getBySlug (cf_slug form) s = (Returns (Some r), s) ∧
       customForms s !! _id r = Some (data r).
Proof.
  intros Hform. unfold CustomForm.getBySlug, gets.
  destruct (list_find_elem_of (λ p : nat * customForm, cf_slug p.2 = cf_slug form)
              (map_to_list (customForms s)) (i, form)) as [[n [j f]] Hfind].
  { by apply elem_of_map_to_list. }
  { done. }
  rewrite Hfind. cbn. eexists; split; [reflexivity|]. cbn.
  apply list_find_Some in Hfind as (Hn & _ & _).
  apply list_elem_of_lookup_2 in Hn. by apply elem_of_map_to_list in Hn.
Qed.

(** C2. Creating a document when the author already has as many
    documents as the community's creation limit for accountables, or
    more, fails with [ErrNotAuthorized] (the PolicyViolation of the
    design) and creates nothing; the count is taken over all documents
    of the author, drafts and published ones alike.  With one document
    less than the limit, and a form slug that resolves, the document is
    created: a draft of that author with its first version. *)
Theorem postDocument_creation_limit (u : user) body s :
  let limit := documentCreationLimit (accountable (permissions (theCommunity s))) in
  let count := Z.of_nat (size (documentsOf s (user_id u))) in
  (limit ≤ count → postDocument (Some u) body s = (Throws ErrNotAuthorized, s)) ∧
  (count = limit - 1 →
   ∀ i form, customForms s !! i = Some form → cf_slug form = post_customForm body →
     ∃ newDocument s',
       postDocument (Some u) body s = (Returns newDocument, s') ∧
       documents s !! _id newDocument = None ∧
       documents s' !! _id newDocument = Some (data newDocument) ∧
       doc_author (data newDocument) = user_id u ∧
       doc_published (data newDocument) = false ∧
       versions s' !! doc_currentVersion (data newDocument)
         = Some (DocumentVersion_ (_id newDocument) 1 (Some (post_content body)) [])).
Proof.
  intros limit count.
  assert (Hrun : postDocument (Some u) body s =
    if bool_decide (count >= limit) then (Throws ErrNotAuthorized, s)
    else (let! customForm := CustomForm.getBySlug (post_customForm body) in
          match customForm with
          | None => throw ErrBadRequest
          | Some customForm =>
              let! newDocument :=
                Document.create (user_id u) (post_content body) customForm in
              notifier.setDocumentClosesNotification
                (_id newDocument) (closingDate (post_content body));;
              ret newDocument
          end) s).
  { unfold postDocument, Community.get, Document.countAuthorDocuments, gets, bind; cbn.
    fold limit. unfold documentsOf in count. fold count.
    by destruct (bool_decide (count >= limit)). }
  split.
  - intros Hle. rewrite Hrun, bool_decide_eq_true_2; [done | lia].
  - intros Hcount i form Hform Hslug.
    rewrite Hrun, bool_decide_eq_false_2 by lia.
    destruct (CustomForm_getBySlug_Some s i form Hform) as (r & Hget & _).
    rewrite Hslug in Hget. rewrite (bind_returns _ _ _ _ _ Hget).
    unfold Document.create, notifier.setDocumentClosesNotification, bind, gets, modify, ret;
      cbn.
    eexists _, _. split; [reflexivity|]. cbn.
    split; [apply not_elem_of_dom, is_fresh|].
    split; [by rewrite lookup_insert_eq|].
    split; [done|]. split; [done|]. by rewrite lookup_insert_eq.
Qed.

Lemma postDocument_creation_limit_witness :
  postDocument (Some alice) (PostBody "project" openContent) limitReached
    = (Throws ErrNotAuthorized, limitReached) ∧
  ∃ newDocument s',
    postDocument (Some alice) (PostBody "project" openContent) twoDocuments
      = (Returns newDocument, s') ∧
    documents s' !! _id newDocument = Some (data newDocument).
Proof.
  split.
  - apply (proj1 (postDocument_creation_limit alice (PostBody "project" openContent)
                    limitReached)).
    compute_done.
  - destruct (proj2 (postDocument_creation_limit alice (PostBody "project" openContent)
                       twoDocuments) eq_refl 7%nat projectForm eq_refl eq_refl)
      as (newDocument & s' & Hrun & _ & Hstored & _).
    by exists newDocument, s'.
Defined.

(** ** Reading a document *)

(** What GET /documents/:id comes to once the document, its current
    version and the content of that version are known: the database is
    only read. *)
Lemma getDocument_run now session id s d v c :
  documents s !! id = Some d →
  versions s !! doc_currentVersion d = Some v →
  ver_content v = Some c →
  let isTheAuthor :=
    match session with Some u => bool_decide (user_id u = doc_author d) | None => false end in
  let isClosed := date_gt (Some now) (newDate (closingDate c)) in
  ∃ n1 n2 n3,
    getDocument now session id s =
      if negb (doc_published d) && negb isTheAuthor
      then (Throws ErrForbidden, s)
      else (Returns (GetPayload (setClosed isClosed (Document.populate s id d))
                                isTheAuthor n1 n2 n3), s).
Proof.
  intros Hd Hv Hc isTheAuthor isClosed. unfold getDocument.
  rewrite (bind_returns _ _ _ _ _ (Document_get_Some _ _ _ Hd)).
  rewrite (bind_returns _ _ _ _ _ (currentClosingDate_Some _ id _ _ _ Hv Hc)).
  fold isClosed.
  replace (match session with Some u => equals u (Document.populate s id d) | None => false end)
    with isTheAuthor by (by destruct session).
  cbn [Document.populate pd_published].
  destruct (negb (doc_published d) && negb isTheAuthor); [by exists None, None, None|].
  destruct isClosed.
  - unfold DocumentVersion.countContributions, Comment.count, bind, gets, ret.
    by eexists _, _, _.
  - by exists None, None, None.
Qed.

Lemma EarlierRouter_getDocument_run session id s d :
  documents s !! id = Some d →
  let isTheAuthor :=
    match session with Some u => bool_decide (user_id u = doc_author d) | None => false end in
  EarlierRouter.getDocument session id s =
    if negb (doc_published d) && negb isTheAuthor
    then (Throws ErrForbidden, s)
    else (Returns (EarlierRouter.GetPayload (Document.populate s id d) isTheAuthor), s).
Proof.
  intros Hd isTheAuthor. unfold EarlierRouter.getDocument.
  rewrite (bind_returns _ _ _ _ _ (Document_get_Some _ _ _ Hd)).
  replace (match session with Some u => equals u (Document.populate s id d) | None => false end)
    with isTheAuthor by (by destruct session).
  cbn [Document.populate pd_published].
  by destruct (negb (doc_published d) && negb isTheAuthor).
Qed.







(** ** Resolving and replying *)

(** The two author-only comment routes, once the document is known. *)
Lemma resolveComment_run (u : user) id idComment s d :
  documents s !! id = Some d →
  resolveComment (Some u) id idComment s =
    if bool_decide (user_id u = doc_author d)
    then match comments s !! idComment with
         | Some c =>
             (Returns (Row idComment (Comment.markResolved c)),
              set_outbox (cons (SendEmail "comment-resolved" idComment))
                (set_comments <[idComment := Comment.markResolved c]> s))
         | None => (Throws ErrNotFound, s)
         end
    else (Throws ErrForbidden, s).
Proof.
  intros Hd. unfold resolveComment.
  rewrite (bind_returns _ _ _ _ _ (Document_get_Some _ _ _ Hd)).
  unfold equals, Comment.resolve, notifier.sendCommentNotification,
    bind, deref, gets, modify, ret, throw; cbn.
  destruct (bool_decide (user_id u = doc_author d)); cbn; [|done].
  by destruct (comments s !! idComment).
Qed.

Lemma replyComment_run (u : user) id idComment text s d :
  documents s !! id = Some d →
  replyComment (Some u) id idComment text s =
    if bool_decide (user_id u = doc_author d)
    then match comments s !! idComment with
         | Some c =>
             (Returns (Row idComment (Comment.withReply text c)),
              set_comments <[idComment := Comment.withReply text c]> s)
         | None => (Throws ErrNotFound, s)
         end
    else (Throws ErrForbidden, s).
Proof.
  intros Hd. unfold replyComment.
  rewrite (bind_returns _ _ _ _ _ (Document_get_Some _ _ _ Hd)).
  unfold equals, Comment.reply, bind, deref, gets, modify, ret, throw; cbn.
  destruct (bool_decide (user_id u = doc_author d)); cbn; [|done].
  by destruct (comments s !! idComment).
Qed.

(** C7. Resolving a comment through an existing document: a user who
    is not the author of the document gets [ErrForbidden] and nothing
    changes; for the author the comment gets [resolved = true] and is
    otherwise as before, other comments are untouched, and resolving
    once more returns again, without error, and leaves the comments as
    they are, still resolved. *)
Theorem resolveComment_author_only (u : user) id idComment s d c :
  documents s !! id = Some d →
  comments s !! idComment = Some c →
  (user_id u ≠ doc_author d →
     resolveComment (Some u) id idComment s = (Throws ErrForbidden, s)) ∧
  (user_id u = doc_author d →
     ∃ r s1,
       resolveComment (Some u) id idComment s = (Returns r, s1) ∧
       comments s1 !! idComment = Some (data r) ∧
       com_resolved (data r) = true ∧
       data r = Comment_ (com_user c) (com_document c) (com_version c) (com_field c)
                         (com_content c) (com_decoration c) true (com_reply c) ∧
       (∀ j, j ≠ idComment → comments s1 !! j = comments s !! j) ∧
       ∃ r' s2,
         resolveComment (Some u) id idComment s1 = (Returns r', s2) ∧
         comments s2 = comments s1 ∧
         com_resolved (data r') = true).
Proof.
  intros Hd Hc. split.
  - intros Hne. rewrite (resolveComment_run u id idComment s d Hd).
    by rewrite bool_decide_eq_false_2.
  - intros Heq. rewrite (resolveComment_run u id idComment s d Hd).
    rewrite bool_decide_eq_true_2, Hc by done.
    eexists _, _. split; [reflexivity|].
    split; [by cbn; rewrite lookup_insert_eq|]. split; [done|]. split; [done|].
    split; [by intros j Hj; cbn; rewrite lookup_insert_ne|].
    set (s1 := set_outbox _ _).
    assert (Hd1 : documents s1 !! id = Some d) by done.
    assert (Hc1 : comments s1 !! idComment = Some (Comment.markResolved c))
      by (by cbn; rewrite lookup_insert_eq).
    rewrite (resolveComment_run u id idComment s1 d Hd1).
    rewrite bool_decide_eq_true_2, Hc1 by done.
    eexists _, _. split; [reflexivity|]. split; [|done].
    cbn. by rewrite insert_insert_eq.
Qed.

Lemma resolveComment_author_only_witness :
  resolveComment (Some carol) 0 0 draftStore = (Throws ErrForbidden, draftStore) ∧
  ∃ r s1, resolveComment (Some alice) 0 0 draftStore = (Returns r, s1) ∧
          com_resolved (data r) = true.
Proof.
  split.
  - apply (proj1 (resolveComment_author_only carol 0%nat 0%nat draftStore
                    (Document_ 1 7 false None 0 1)
                    (Comment_ 2 0 0 "brief" "Too vague" None false None)
                    eq_refl eq_refl)).
    discriminate.
  - destruct (proj2 (resolveComment_author_only alice 0%nat 0%nat draftStore
                       (Document_ 1 7 false None 0 1)
                       (Comment_ 2 0 0 "brief" "Too vague" None false None)
                       eq_refl eq_refl) eq_refl)
      as (r & s1 & Hrun & _ & Hresolved & _).
    by exists r, s1.
Defined.

(** C10. Neither route looks at the document the comment was made on.
    For a document authored by the acting user and any existing
    comment, resolving through that document sets [resolved = true] on
    the comment and replying through it overwrites the comment's reply,
    whatever document the comment belongs to; and a user who is not the
    author of the document named in the request is refused, whatever
    the comment. *)
Theorem resolve_reply_any_comment (u : user) id idComment text s d c :
  documents s !! id = Some d →
  comments s !! idComment = Some c →
  (user_id u = doc_author d →
     (∃ r s1,
        resolveComment (Some u) id idComment s = (Returns r, s1) ∧
        comments s1 !! idComment = Some (data r) ∧
        com_resolved (data r) = true ∧
        com_document (data r) = com_document c) ∧
     (∃ r s1,
        replyComment (Some u) id idComment text s = (Returns r, s1) ∧
        comments s1 !! idComment = Some (data r) ∧
        com_reply (data r) = Some text ∧
        com_document (data r) = com_document c)) ∧
  (user_id u ≠ doc_author d →
     resolveComment (Some u) id idComment s = (Throws ErrForbidden, s) ∧
     replyComment (Some u) id idComment text s = (Throws ErrForbidden, s)).
Proof.
  intros Hd Hc.
  rewrite (resolveComment_run u id idComment s d Hd),
          (replyComment_run u id idComment text s d Hd), Hc.
  split.
  - intros Heq. rewrite bool_decide_eq_true_2 by done.
    split; eexists _, _; (split; [reflexivity|]); cbn;
      by rewrite lookup_insert_eq.
  - intros Hne. by rewrite bool_decide_eq_false_2.
Qed.

Lemma resolve_reply_any_comment_witness :
  com_document <$> comments twoDocuments !! 1%nat = Some 1%nat ∧
  (∃ r s1, resolveComment (Some alice) 0 1 twoDocuments = (Returns r, s1) ∧
           comments s1 !! 1%nat = Some (data r) ∧ com_resolved (data r) = true) ∧
  (∃ r s1, replyComment (Some alice) 0 1 "Noted" twoDocuments = (Returns r, s1) ∧
           comments s1 !! 1%nat = Some (data r) ∧ com_reply (data r) = Some "Noted").
Proof.
  split; [reflexivity|].
  destruct (proj1 (resolve_reply_any_comment alice 0%nat 1%nat "Noted" twoDocuments
                     (Document_ 1 7 false None 0 1)
                     (Comment_ 1 1 1 "brief" "Agreed" None false None)
                     eq_refl eq_refl) eq_refl)
    as [(r & s1 & Hrun & Hstored & Hresolved & _) (r' & s1' & Hrun' & Hstored' & Hreply & _)].
  split; [by exists r, s1 | by exists r', s1'].
Defined.

(** ** Likes *)

(** [Like.get] finds a like of the pair if and only if there is one. *)
Lemma Like_get_cases s u c :
  (∃ i, Like.get u c s = (Returns (Some (Row i (Like_ u c))), s) ∧
        likes s !! i = Some (Like_ u c)) ∨
  (Like.get u c s = (Returns None, s) ∧ ¬ liked s u c).
Proof.
  unfold Like.get, gets.
  destruct (list_find _ (map_to_list (likes s))) as [[n [i l]]|] eqn:Hfind.
  - left. apply list_find_Some in Hfind as (Hn & [Hu Hc] & _).
    apply list_elem_of_lookup_2, elem_of_map_to_list in Hn.
    destruct l as [lu lc]. cbn in Hu, Hc. subst lu lc.
    exists i. by split.
  - right. split; [done|]. intros [i Hi].
    apply list_find_None in Hfind.
    apply elem_of_map_to_list in Hi.
    by eapply Forall_forall in Hfind; [apply Hfind|exact Hi].
Qed.

Lemma likesUnique_insert s l :
  likesUnique s → (∀ j, likes s !! j ≠ Some l) →
  likesUnique (set_likes <[freshId (likes s) := l]> s).
Proof.
  intros Huniq Hnew i j l'. cbn.
  rewrite !lookup_insert. repeat case_decide; subst; try done.
  - intros [= <-] Hj. by destruct (Hnew j).
  - intros Hi [= <-]. by destruct (Hnew i).
  - apply Huniq.
Qed.

Lemma likesUnique_delete s i :
  likesUnique s → likesUnique (set_likes (delete i) s).
Proof.
  intros Huniq a b l. cbn.
  rewrite !lookup_delete. repeat case_decide; try done. apply Huniq.
Qed.

Lemma freshId_None {A} (m : gmap nat A) : m !! freshId m = None.
Proof. apply not_elem_of_dom, is_fresh. Qed.

(** The like route, case by case. *)
Lemma likeComment_create (u : user) id idComment s d :
  ¬ liked s (user_id u) idComment →
  documents s !! id = Some d →
  likeComment (Some u) id idComment s =
    (Returns (Some (Row (freshId (likes s)) (Like_ (user_id u) idComment))),
     (if bool_decide (user_id u = doc_author d)
      then set_outbox (cons (SendEmail "comment-liked" idComment))
      else λ s', s')
       (set_likes <[freshId (likes s) := Like_ (user_id u) idComment]> s)).
Proof.
  intros Hnot Hd.
  destruct (Like_get_cases s (user_id u) idComment) as [(i & _ & Hi) | [Hget _]];
    [by destruct Hnot; exists i|].
  unfold likeComment. cbn [deref]. unfold ret at 1.
  rewrite (bind_returns _ _ _ u s) by done.
  rewrite (bind_returns _ _ _ _ _ Hget).
  rewrite (bind_returns _ _ _ _ _ (Document_get_Some _ _ _ Hd)).
  cbn [deref]. unfold Like.create.
  unfold bind at 1. unfold bind at 1. unfold ret at 1. unfold ret at 1.
  unfold equals. cbn [Document.populate pd_author].
  rewrite (bind_returns _ _ _ _ _ (bind_returns _ _ _ _ _ Hget)).
  unfold bind, gets, modify, ret, notifier.sendCommentNotification.
  by destruct (bool_decide (user_id u = doc_author d)).
Qed.

Lemma likeComment_no_document (u : user) id idComment s :
  ¬ liked s (user_id u) idComment →
  documents s !! id = None →
  likeComment (Some u) id idComment s = (Throws TypeError, s).
Proof.
  intros Hnot Hd.
  destruct (Like_get_cases s (user_id u) idComment) as [(i & _ & Hi) | [Hget _]];
    [by destruct Hnot; exists i|].
  unfold likeComment. cbn [deref]. unfold ret at 1.
  rewrite (bind_returns _ _ _ u s) by done.
  rewrite (bind_returns _ _ _ _ _ Hget).
  rewrite (bind_returns _ _ _ _ _ (Document_get_None _ _ Hd)).
  by cbn.
Qed.

Lemma likeComment_remove (u : user) id idComment s :
  liked s (user_id u) idComment →
  ∃ i, likes s !! i = Some (Like_ (user_id u) idComment) ∧
       likeComment (Some u) id idComment s = (Returns None, set_likes (delete i) s).
Proof.
  intros Hliked.
  destruct (Like_get_cases s (user_id u) idComment) as [(i & Hget & Hi) | [_ Hnot]];
    [|done].
  exists i. split; [done|].
  unfold likeComment. cbn [deref]. unfold ret at 1.
  rewrite (bind_returns _ _ _ u s) by done.
  by rewrite (bind_returns _ _ _ _ _ Hget).
Qed.

Lemma liked_dec s u c : liked s u c ∨ ¬ liked s u c.
Proof.
  destruct (Like_get_cases s u c) as [(i & _ & Hi) | [_ Hnot]]; [left; by exists i | by right].
Qed.

(** The claim C6 as it is worded does not hold: the handler does not
    look at the author of the comment.  Alice likes her own comment on
    her own document, and the notifier is called. *)
Lemma likeComment_notification_counterexample :
  ¬ (∀ (u : user) id idComment s d c,
       documents s !! id = Some d →
       comments s !! idComment = Some c →
       (outbox (likeComment (Some u) id idComment s).2
          = SendEmail "comment-liked" idComment :: outbox s
        ↔ ¬ liked s (user_id u) idComment ∧
          user_id u = doc_author d ∧
          user_id u ≠ com_user c)).
Proof.
  intros claim.
  destruct (claim alice 0%nat 1%nat ownComment
                  (Document_ 1 7 false None 0 2)
                  (Comment_ 1 0 0 "brief" "Note to self" None false None)
                  eq_refl eq_refl) as [emitted _].
  destruct (emitted eq_refl) as (_ & _ & Hother). by apply Hother.
Qed.

(** C6 (amended). The like route calls the notifier with
    "comment-liked" exactly when the toggle creates a like and the
    liker is the author of the document named in the request; whether
    the liker wrote the comment plays no part.  In every other case (a
    like is removed, or the liker is not the document's author) the
    notifier is not called. *)
Theorem likeComment_notification (u : user) id idComment s :
  let s' := (likeComment (Some u) id idComment s).2 in
  let emits := ¬ liked s (user_id u) idComment ∧
               ∃ d, documents s !! id = Some d ∧ user_id u = doc_author d in
  (emits → outbox s' = SendEmail "comment-liked" idComment :: outbox s) ∧
  (¬ emits → outbox s' = outbox s).
Proof.
  intros s' emits. subst s'. split.
  - intros (Hnot & d & Hd & Hauthor).
    rewrite (likeComment_create u id idComment s d Hnot Hd).
    by rewrite bool_decide_eq_true_2.
  - intros Hno. destruct (liked_dec s (user_id u) idComment) as [Hliked | Hnot].
    + destruct (likeComment_remove u id idComment s Hliked) as (i & _ & ->). done.
    + destruct (documents s !! id) as [d|] eqn:Hd.
      * rewrite (likeComment_create u id idComment s d Hnot Hd).
        case_bool_decide as Hauthor; [|done].
        destruct Hno. split; [done|]. by exists d.
      * by rewrite (likeComment_no_document u id idComment s Hnot Hd).
Qed.

Lemma likeComment_notification_witness :
  outbox (likeComment (Some alice) 0 1 ownComment).2
    = SendEmail "comment-liked" 1 :: outbox ownComment ∧
  outbox (likeComment (Some bob) 0 1 ownComment).2 = outbox ownComment.
Proof.
  split.
  - apply (proj1 (likeComment_notification alice 0%nat 1%nat ownComment)).
    split.
    + intros [i Hi]. revert Hi. vm_compute. by destruct i.
    + by exists (Document_ 1 7 false None 0 2).
  - apply (proj2 (likeComment_notification bob 0%nat 1%nat ownComment)).
    intros (_ & d & Hd & Hauthor). vm_compute in Hd. by injection Hd as <-.
Defined.

(** With at most one like per pair, [Like.get] yields exactly the
    stored like of the pair. *)
Lemma Like_get_exact s u c l :
  likesUnique s →
  Like.get u c s = (Returns (Some l), s)
  ↔ likes s !! _id l = Some (data l) ∧ data l = Like_ u c.
Proof.
  intros Huniq.
  destruct (Like_get_cases s u c) as [(i & Hget & Hi) | [Hget Hnot]]; rewrite Hget.
  - split.
    + by intros [= <-].
    + intros [Hl Hdata]. destruct l as [j dl]. cbn in *. subst dl.
      by rewrite (Huniq i j _ Hi Hl).
  - split; [done|]. intros [Hl Hdata]. destruct Hnot. exists (_id l). by rewrite Hl, Hdata.
Qed.

(** One toggle, from either state of the pair. *)
Lemma likeComment_toggle_once (u : user) id idComment s d :
  documents s !! id = Some d →
  likesUnique s →
  let s' := (likeComment (Some u) id idComment s).2 in
  likesUnique s' ∧ documents s' !! id = Some d ∧
  (¬ liked s (user_id u) idComment →
     ∃ l, (likeComment (Some u) id idComment s).1 = Returns (Some l) ∧
          data l = Like_ (user_id u) idComment ∧
          likes s !! _id l = None ∧
          likes s' !! _id l = Some (data l) ∧
          liked s' (user_id u) idComment) ∧
  (liked s (user_id u) idComment →
     (likeComment (Some u) id idComment s).1 = Returns None ∧
     ¬ liked s' (user_id u) idComment) ∧
  (∀ u' c', (u', c') ≠ (user_id u, idComment) → liked s' u' c' ↔ liked s u' c').
Proof.
  intros Hd Huniq.
  destruct (liked_dec s (user_id u) idComment) as [Hliked | Hnot].
  - destruct (likeComment_remove u id idComment s Hliked) as (i & Hi & Hrun).
    cbn zeta. rewrite Hrun. cbn [fst snd].
    assert (Hgone : ¬ liked (set_likes (delete i) s) (user_id u) idComment).
    { intros [j Hj]. cbn in Hj. rewrite lookup_delete in Hj.
      case_decide; [done|]. by destruct (Huniq i j _ Hi Hj). }
    split; [by apply likesUnique_delete|]. split; [done|].
    split; [done|]. split; [done|].
    intros u' c' Hother. unfold liked. cbn.
    split; intros [j Hj]; exists j.
    + rewrite lookup_delete in Hj. by case_decide.
    + rewrite lookup_delete_ne; [done|]. intros <-. rewrite Hi in Hj.
      by injection Hj as <- <-.
  - rewrite (surjective_pairing (likeComment (Some u) id idComment s)).
    cbn zeta. rewrite (likeComment_create u id idComment s d Hnot Hd). cbn [fst snd].
    set (l := Like_ (user_id u) idComment).
    set (s' := (if bool_decide _ then _ else _) _).
    assert (Hlikes : likes s' = <[freshId (likes s) := l]> (likes s))
      by (subst s'; by case_bool_decide).
    assert (Hdocs : documents s' = documents s)
      by (subst s'; by case_bool_decide).
    assert (Hnone : ∀ j, likes s !! j ≠ Some l)
      by (intros j Hj; destruct Hnot; by exists j).
    split.
    { intros a b l'. rewrite Hlikes.
      apply (likesUnique_insert s l Huniq Hnone a b l'). }
    split; [by rewrite Hdocs|].
    split.
    { intros _. eexists. split; [reflexivity|]. cbn [data _id].
      split; [done|]. split; [apply freshId_None|].
      rewrite Hlikes, lookup_insert_eq. split; [done|].
      exists (freshId (likes s)). by rewrite Hlikes, lookup_insert_eq. }
    split; [done|].
    intros u' c' Hother. unfold liked. rewrite Hlikes.
    split; intros [j Hj]; exists j.
    + rewrite lookup_insert in Hj. case_decide; [|done].
      injection Hj as <- <-. done.
    + rewrite lookup_insert_ne; [done|]. intros <-.
      by rewrite freshId_None in Hj.
Qed.

(** The like route keeps at most one like per pair, whatever the
    request. *)
Lemma likeComment_likesUnique session id idComment s :
  likesUnique s → likesUnique (likeComment session id idComment s).2.
Proof.
  intros Huniq. destruct session as [u|]; [|done].
  destruct (liked_dec s (user_id u) idComment) as [Hliked | Hnot].
  - destruct (likeComment_remove u id idComment s Hliked) as (i & _ & ->).
    by apply likesUnique_delete.
  - destruct (documents s !! id) as [d|] eqn:Hd.
    + by destruct (likeComment_toggle_once u id idComment s d Hd Huniq) as [? _].
    + by rewrite (likeComment_no_document u id idComment s Hnot Hd).
Qed.

(** ** Updating a document *)

(** Sending one notification per comment only adds to the outbox. *)
Lemma forEach_notify type (l : list (row comment)) s :
  forEach l (λ comment, notifier.sendCommentNotification type (_id comment)) s
  = (Returns (), set_outbox (λ o, (rev ((λ c, SendEmail type (_id c)) <$> l) ++ o)%list) s).
Proof.
  revert s. induction l as [|c l IH]; intros s.
  - by destruct s.
  - cbn [forEach]. unfold bind at 1.
    unfold notifier.sendCommentNotification at 1, modify.
    rewrite IH. unfold set_outbox; cbn. by rewrite <- app_assoc.
Qed.

(** The update route for the author of an existing document whose
    current version resolves: what it returns and what it leaves in the
    documents, versions and likes. *)
Lemma putDocument_run (u : user) id body s d v :
  documents s !! id = Some d →
  user_id u = doc_author d →
  versions s !! doc_currentVersion d = Some v →
  let newId := freshId (versions s) in
  let p := DocumentPatch (put_published body) (put_closed body)
             (match put_contributions body with
              | Some (_ :: _) => Some newId
              | _ => None
              end) in
  ∃ s',
    putDocument (Some u) id body s = (Returns (Row id (Document.patch p d)), s') ∧
    documents s' = <[id := Document.patch p d]> (documents s) ∧
    versions s' =
      match put_contributions body with
      | Some (contribution :: contributions) =>
          <[newId := DocumentVersion_ id (ver_version v + 1) (put_content body)
                                      (contribution :: contributions)]> (versions s)
      | _ => <[doc_currentVersion d := DocumentVersion.amend (put_content body) v]> (versions s)
      end ∧
    likes s' = likes s.
Proof.
  intros Hd Hauthor Hv newId p.
  unfold putDocument, Document.get, Comment.updateDecorations, CustomForm.get,
    DocumentVersion.create, DocumentVersion.update, Document.update, Comment.getAll,
    notifier.setDocumentClosesNotification, equals.
  exec. rewrite Hd. exec. rewrite bool_decide_eq_true_2 by done. exec. rewrite Hv.
  destruct (put_decorations body) as [[|entry entries]|];
    destruct (put_contributions body) as [[|contribution contributions]|] eqn:Hcontrib;
    subst p newId.
  all: exec; rewrite ?Hv; exec; rewrite ?forEach_notify; exec; rewrite ?Hd; exec.
  all: destruct (put_content body) as [c|]; [destruct (truthy (closingDate c))|]; exec.
  all: by eexists.
Qed.

(** ** The version chains *)

Lemma fmap_Some_inv {A B} (f : A → B) (x y : option A) a :
  f <$> x = f <$> y → x = Some a → ∃ b, y = Some b ∧ f b = f a.
Proof. intros H ->. destruct y as [b|]; [|done]. exists b. by injection H as ->. Qed.

(** The invariant only looks at the chains. *)
Lemma versionsWellFormed_sameChains s s' :
  sameChains s s' → versionsWellFormed s → versionsWellFormed s'.
Proof.
  intros [Hdocs Hvers] [Hlatest Howned Hdistinct].
  assert (Hback : ∀ j w, versions s' !! j = Some w →
            ∃ w0, versions s !! j = Some w0 ∧ link w0 = link w).
  { intros j w Hw. by apply (fmap_Some_inv link _ _ w (Hvers j)). }
  split.
  - intros id d' Hd'.
    destruct (fmap_Some_inv doc_currentVersion _ _ d' (Hdocs id) Hd') as (d & Hd & Hcur).
    destruct (Hlatest id d Hd) as (v & Hv & Hdoc & Hmax).
    destruct (fmap_Some_inv link _ _ v (eq_sym (Hvers (doc_currentVersion d))) Hv)
      as (v' & Hv' & Hlink).
    injection Hlink as Hld Hlv.
    exists v'. rewrite <- Hcur. split; [done|]. split; [congruence|].
    intros j w Hw Hwdoc. destruct (Hback j w Hw) as (w0 & Hw0 & Hlink0).
    injection Hlink0 as Hd0 Hv0. rewrite Hlv, <- Hv0.
    apply (Hmax j w0 Hw0). congruence.
  - intros j w Hw. destruct (Hback j w Hw) as (w0 & Hw0 & Hlink0).
    injection Hlink0 as Hd0 Hv0. rewrite <- Hd0.
    destruct (Howned j w0 Hw0) as [d Hd].
    specialize (Hdocs (ver_document w0)). rewrite Hd in Hdocs.
    by destruct (documents s' !! ver_document w0).
  - intros i j v w Hv Hw Hdoc Hnum.
    destruct (Hback i v Hv) as (v0 & Hv0 & Hlv). destruct (Hback j w Hw) as (w0 & Hw0 & Hlw).
    injection Hlv as ? ?. injection Hlw as ? ?.
    apply (Hdistinct i j v0 w0 Hv0 Hw0); congruence.
Qed.

(** A new version at the head of the chain of a document. *)
Lemma versionsWellFormed_bump s s' id d d' v newId c cs :
  versionsWellFormed s →
  documents s !! id = Some d →
  versions s !! doc_currentVersion d = Some v →
  versions s !! newId = None →
  doc_currentVersion d' = newId →
  documents s' = <[id := d']> (documents s) →
  versions s' = <[newId := DocumentVersion_ id (ver_version v + 1) c cs]> (versions s) →
  versionsWellFormed s'.
Proof.
  intros [Hlatest Howned Hdistinct] Hd Hv Hfresh Hcur Hdocs Hvers.
  destruct (Hlatest id d Hd) as (v0 & Hv0 & Hvdoc & Hmax).
  rewrite Hv in Hv0. injection Hv0 as <-.
  split; rewrite ?Hdocs, ?Hvers.
  - intros id' e. rewrite lookup_insert. case_decide as Hid.
    + subst id'. intros [= <-]. rewrite Hcur, lookup_insert_eq.
      eexists. split; [done|]. split; [done|]. cbn.
      intros j w. rewrite lookup_insert. case_decide; [by intros [= <-]|].
      intros Hw Hwdoc. specialize (Hmax j w Hw Hwdoc). lia.
    + intros He. destruct (Hlatest id' e He) as (w & Hw & Hwdoc & Hwmax).
      exists w. rewrite lookup_insert_ne by congruence.
      split; [done|]. split; [done|].
      intros j x. rewrite lookup_insert. case_decide; [|by apply Hwmax].
      intros [= <-]. cbn. congruence.
  - intros j w. rewrite lookup_insert. case_decide.
    + intros [= <-]. cbn. by rewrite lookup_insert_eq.
    + intros Hw. rewrite lookup_insert. case_decide; [done|]. by apply (Howned j).
  - intros i j x w. rewrite !lookup_insert. repeat case_decide; subst; try done.
    + intros [= <-] Hw. cbn. intros Hdoc Hnum.
      specialize (Hmax j w Hw (eq_sym Hdoc)). lia.
    + intros Hx [= <-]. cbn. intros Hdoc Hnum.
      specialize (Hmax i x Hx Hdoc). lia.
    + apply Hdistinct.
Qed.

(** The first version of a new document. *)
Lemma versionsWellFormed_create s s' newDoc d newId c :
  versionsWellFormed s →
  documents s !! newDoc = None →
  versions s !! newId = None →
  doc_currentVersion d = newId →
  documents s' = <[newDoc := d]> (documents s) →
  versions s' = <[newId := DocumentVersion_ newDoc 1 c []]> (versions s) →
  versionsWellFormed s'.
Proof.
  intros [Hlatest Howned Hdistinct] Hnodoc Hfresh Hcur Hdocs Hvers.
  assert (Hnone : ∀ j w, versions s !! j = Some w → ver_document w ≠ newDoc).
  { intros j w Hw Heq. destruct (Howned j w Hw) as [e He]. congruence. }
  split; rewrite ?Hdocs, ?Hvers.
  - intros id' e. rewrite lookup_insert. case_decide as Hid.
    + subst id'. intros [= <-]. rewrite Hcur, lookup_insert_eq.
      eexists. split; [done|]. split; [done|]. cbn.
      intros j w. rewrite lookup_insert. case_decide; [by intros [= <-]|].
      intros Hw Hwdoc. by destruct (Hnone j w Hw).
    + intros He. destruct (Hlatest id' e He) as (w & Hw & Hwdoc & Hwmax).
      exists w. rewrite lookup_insert_ne by congruence.
      split; [done|]. split; [done|].
      intros j x. rewrite lookup_insert. case_decide; [|by apply Hwmax].
      intros [= <-]. cbn. congruence.
  - intros j w. rewrite lookup_insert. case_decide.
    + intros [= <-]. cbn. by rewrite lookup_insert_eq.
    + intros Hw. rewrite lookup_insert. case_decide; [done|]. by apply (Howned j).
  - intros i j x w. rewrite !lookup_insert. repeat case_decide; subst; try done.
    + intros [= <-] Hw. cbn. intros Hdoc _. by destruct (Hnone j w Hw).
    + intros Hx [= <-]. cbn. intros Hdoc _. by destruct (Hnone i x Hx).
    + apply Hdistinct.
Qed.

(** *** What each route does to the chains *)

Lemma getDocument_reads now session id s : (getDocument now session id s).2 = s.
Proof.
  unfold getDocument, currentClosingDate, Document.get, DocumentVersion.countContributions,
    Comment.count.
  exec. destruct (documents s !! id) as [d|]; exec; [|done].
  destruct (versions s !! doc_currentVersion d) as [v|]; exec; [|done].
  destruct (ver_content v) as [c|]; exec; [|done].
  destruct (negb (doc_published d) && _); exec; [done|].
  by destruct (date_gt _ _).
Qed.

Lemma createComment_chains now session id body s :
  sameChains s (createComment now session id body s).2.
Proof.
  unfold createComment, currentClosingDate, Document.get, CustomForm.get, Comment.create,
    Document.addComment.
  destruct session as [u|]; exec; [|done].
  destruct (documents s !! id) as [d|] eqn:Hd; exec; [|done].
  destruct (customForms s !! doc_customForm d) as [form|]; exec; [|done].
  destruct (notFound _ _); exec; [done|].
  destruct (versions s !! doc_currentVersion d) as [v|]; exec; [|done].
  destruct (ver_content v) as [c|]; exec; [|done].
  destruct (truthy (closingDate c)); [destruct (date_lt _ _)|]; exec; try done.
  all: split; [|done]; intros id'; cbn; rewrite lookup_alter; case_decide; [|done].
  all: subst id'; by rewrite Hd.
Qed.

Lemma resolveComment_chains session id idComment s :
  sameChains s (resolveComment session id idComment s).2.
Proof.
  unfold resolveComment, Document.get, Comment.resolve, notifier.sendCommentNotification,
    equals.
  exec. destruct session as [u|]; exec; [|done].
  destruct (documents s !! id) as [d|]; exec; [|done].
  destruct (bool_decide _); exec; [|done].
  by destruct (comments s !! idComment).
Qed.

Lemma replyComment_chains session id idComment text s :
  sameChains s (replyComment session id idComment text s).2.
Proof.
  unfold replyComment, Document.get, Comment.reply, equals.
  exec. destruct session as [u|]; exec; [|done].
  destruct (documents s !! id) as [d|]; exec; [|done].
  destruct (bool_decide _); exec; [|done].
  by destruct (comments s !! idComment).
Qed.

Lemma likeComment_chains session id idComment s :
  sameChains s (likeComment session id idComment s).2.
Proof.
  destruct session as [u|]; [|done].
  destruct (liked_dec s (user_id u) idComment) as [Hliked | Hnot].
  - by destruct (likeComment_remove u id idComment s Hliked) as (i & _ & ->).
  - destruct (documents s !! id) as [d|] eqn:Hd.
    + rewrite (likeComment_create u id idComment s d Hnot Hd).
      by case_bool_decide.
    + by rewrite (likeComment_no_document u id idComment s Hnot Hd).
Qed.

Lemma postDocument_wellFormed session body s :
  versionsWellFormed s → versionsWellFormed (postDocument session body s).2.
Proof.
  intros Hwf.
  unfold postDocument, Community.get, Document.countAuthorDocuments, CustomForm.getBySlug,
    Document.create, notifier.setDocumentClosesNotification.
  exec. destruct session as [u|]; exec; [|done].
  destruct (bool_decide _); exec; [done|].
  destruct (_ <$> _) as [form|]; exec; [|done].
  eapply (versionsWellFormed_create s _ (freshId (documents s)) _ (freshId (versions s)));
    [done | apply freshId_None | apply freshId_None | | done | done].
  done.
Qed.

Lemma putDocument_wellFormed session id body s :
  versionsWellFormed s → versionsWellFormed (putDocument session id body s).2.
Proof.
  intros Hwf.
  destruct (documents s !! id) as [d|] eqn:Hd; cycle 1.
  { unfold putDocument, Document.get. exec. by rewrite Hd. }
  destruct session as [u|]; cycle 1.
  { unfold putDocument, Document.get. exec. by rewrite Hd. }
  destruct (decide (user_id u = doc_author d)) as [Hauthor | Hother]; cycle 1.
  { unfold putDocument, Document.get, equals. exec. rewrite Hd. exec.
    by rewrite bool_decide_eq_false_2. }
  destruct (versions s !! doc_currentVersion d) as [v|] eqn:Hv; cycle 1.
  { unfold putDocument, Document.get, equals, CustomForm.get. exec. rewrite Hd. exec.
    rewrite bool_decide_eq_true_2 by done. exec. rewrite Hv.
    destruct (put_decorations body) as [[|entry entries]|]; exec; try done.
    all: by destruct (put_contributions body) as [[|contribution contributions]|]. }
  destruct (putDocument_run u id body s d v Hd Hauthor Hv)
    as (s' & Hrun & Hdocs & Hvers & _).
  rewrite Hrun. cbn [snd].
  destruct (put_contributions body) as [[|contribution contributions]|].
  2: { eapply (versionsWellFormed_bump s s' id d); try done. apply freshId_None. }
  all: apply (versionsWellFormed_sameChains s s'); [|done].
  all: split; [intros id' | intros j]; rewrite ?Hdocs, ?Hvers.
  all: rewrite lookup_insert; case_decide; [subst|done].
  all: by rewrite ?Hd, ?Hv.
Qed.

(** Serving a request keeps the version chains well formed. *)
Lemma serve_wellFormed r s : versionsWellFormed s → versionsWellFormed (serve r s).
Proof.
  intros Hwf. destruct r; cbn [serve].
  - by apply postDocument_wellFormed.
  - by rewrite getDocument_reads.
  - by apply putDocument_wellFormed.
  - by eapply versionsWellFormed_sameChains; [apply createComment_chains|].
  - by eapply versionsWellFormed_sameChains; [apply resolveComment_chains|].
  - by eapply versionsWellFormed_sameChains; [apply likeComment_chains|].
  - by eapply versionsWellFormed_sameChains; [apply replyComment_chains|].
Qed.

Lemma reachable_wellFormed s : reachable s → versionsWellFormed s.
Proof.
  induction 1 as [forms c | r s _ IH].
  - by split.
  - by apply serve_wellFormed.
Qed.






(** ** The closed flag after an update *)

(** The other copy of the router has no such computation: what it
    delivers as [closed] is the value stored on the document. *)
Remark EarlierRouter_getDocument_stored_closed session id s d :
  documents s !! id = Some d →
  doc_published d = true →
  ∃ p, EarlierRouter.getDocument session id s = (Returns p, s) ∧
       pd_closed (EarlierRouter.payload_document p) = doc_closed d.
Proof.
  intros Hd Hpub. rewrite (EarlierRouter_getDocument_run session id s d Hd), Hpub.
  by eexists.
Qed.



(** ** Likes over the runs of the server *)

Lemma postDocument_likes session body s : likes (postDocument session body s).2 = likes s.
Proof.
  unfold postDocument, Community.get, Document.countAuthorDocuments, CustomForm.getBySlug,
    Document.create, notifier.setDocumentClosesNotification.
  exec. destruct session as [u|]; exec; [|done].
  destruct (bool_decide _); exec; [done|].
  by destruct (_ <$> _) as [form|].
Qed.

Lemma putDocument_likes session id body s :
  likes (putDocument session id body s).2 = likes s.
Proof.
  destruct (documents s !! id) as [d|] eqn:Hd; cycle 1.
  { unfold putDocument, Document.get. exec. by rewrite Hd. }
  destruct session as [u|]; cycle 1.
  { unfold putDocument, Document.get. exec. by rewrite Hd. }
  destruct (decide (user_id u = doc_author d)) as [Hauthor | Hother]; cycle 1.
  { unfold putDocument, Document.get, equals. exec. rewrite Hd. exec.
    by rewrite bool_decide_eq_false_2. }
  destruct (versions s !! doc_currentVersion d) as [v|] eqn:Hv; cycle 1.
  { unfold putDocument, Document.get, equals, CustomForm.get. exec. rewrite Hd. exec.
    rewrite bool_decide_eq_true_2 by done. exec. rewrite Hv.
    destruct (put_decorations body) as [[|entry entries]|]; exec; try done.
    all: by destruct (put_contributions body) as [[|contribution contributions]|]. }
  by destruct (putDocument_run u id body s d v Hd Hauthor Hv) as (s' & -> & _ & _ & ?).
Qed.

Lemma createComment_likes now session id body s :
  likes (createComment now session id body s).2 = likes s.
Proof.
  unfold createComment, currentClosingDate, Document.get, CustomForm.get, Comment.create,
    Document.addComment.
  destruct session as [u|]; exec; [|done].
  destruct (documents s !! id) as [d|]; exec; [|done].
  destruct (customForms s !! doc_customForm d) as [form|]; exec; [|done].
  destruct (notFound _ _); exec; [done|].
  destruct (versions s !! doc_currentVersion d) as [v|]; exec; [|done].
  destruct (ver_content v) as [c|]; exec; [|done].
  by destruct (truthy (closingDate c)); [destruct (date_lt _ _)|].
Qed.

Lemma resolveComment_likes session id idComment s :
  likes (resolveComment session id idComment s).2 = likes s.
Proof.
  unfold resolveComment, Document.get, Comment.resolve, notifier.sendCommentNotification,
    equals.
  exec. destruct session as [u|]; exec; [|done].
  destruct (documents s !! id) as [d|]; exec; [|done].
  destruct (bool_decide _); exec; [|done].
  by destruct (comments s !! idComment).
Qed.

Lemma replyComment_likes session id idComment text s :
  likes (replyComment session id idComment text s).2 = likes s.
Proof.
  unfold replyComment, Document.get, Comment.reply, equals.
  exec. destruct session as [u|]; exec; [|done].
  destruct (documents s !! id) as [d|]; exec; [|done].
  destruct (bool_decide _); exec; [|done].
  by destruct (comments s !! idComment).
Qed.

Lemma likesUnique_likes s s' : likes s' = likes s → likesUnique s → likesUnique s'.
Proof. unfold likesUnique. by intros ->. Qed.

Lemma serve_likesUnique r s : likesUnique s → likesUnique (serve r s).
Proof.
  intros Huniq. destruct r; cbn [serve].
  - by eapply likesUnique_likes; [apply postDocument_likes|].
  - by rewrite getDocument_reads.
  - by eapply likesUnique_likes; [apply putDocument_likes|].
  - by eapply likesUnique_likes; [apply createComment_likes|].
  - by eapply likesUnique_likes; [apply resolveComment_likes|].
  - by apply likeComment_likesUnique.
  - by eapply likesUnique_likes; [apply replyComment_likes|].
Qed.

Lemma reachable_likesUnique s : reachable s → likesUnique s.
Proof.
  induction 1 as [forms c | r s _ IH].
  - intros i j l Hi. cbn in Hi. by rewrite lookup_empty in Hi.
  - by apply serve_likesUnique.
Qed.

(** Removing a like does not read the document the route names. *)
Lemma likeComment_untoggle (u : user) id idComment s :
  likesUnique s →
  liked s (user_id u) idComment →
  let s' := (likeComment (Some u) id idComment s).2 in
  (likeComment (Some u) id idComment s).1 = Returns None ∧
  ¬ liked s' (user_id u) idComment ∧
  documents s' = documents s ∧
  (∀ u' c', (u', c') ≠ (user_id u, idComment) → liked s' u' c' ↔ liked s u' c').
Proof.
  intros Huniq Hliked.
  destruct (likeComment_remove u id idComment s Hliked) as (i & Hi & Hrun).
  cbn zeta. rewrite Hrun. cbn [fst snd].
  split; [done|]. split.
  { intros [j Hj]. cbn in Hj. rewrite lookup_delete in Hj.
    case_decide; [done|]. by destruct (Huniq i j _ Hi Hj). }
  split; [done|].
  intros u' c' Hother. unfold liked. cbn.
  split; intros [j Hj]; exists j.
  - rewrite lookup_delete in Hj. by case_decide.
  - rewrite lookup_delete_ne; [done|]. intros <-. rewrite Hi in Hj.
    by injection Hj as <- <-.
Qed.

Lemma reachable_draftStore : reachable draftStore.
Proof. repeat apply reachable_serve. apply reachable_install. Defined.

Lemma reachable_likedStore : reachable likedStore.
Proof. repeat apply reachable_serve. apply reachable_install. Defined.

Lemma not_liked_draftStore u c : ¬ liked draftStore u c.
Proof.
  intros [i Hi]. revert Hi.
  change (likes draftStore) with (∅ : gmap nat like).
  by rewrite lookup_empty.
Qed.

(** The claim C5 as it is worded does not hold.  The route
    /documents/9/comments/0/like names a document that does not exist.
    Bob has no like on comment 0: no like is created for him, the
    handler throws.  And where Bob has a like on comment 0, two toggles
    on that route do not bring it back: the first removes it, the
    second throws. *)
Lemma likeComment_toggle_counterexample :
  ¬ (∀ (u : user) id idComment s,
       likesUnique s →
       ¬ liked s (user_id u) idComment →
       ∃ l, (likeComment (Some u) id idComment s).1 = Returns (Some l)) ∧
  ¬ (∀ (u : user) id idComment s,
       likesUnique s →
       let s1 := (likeComment (Some u) id idComment s).2 in
       let s2 := (likeComment (Some u) id idComment s1).2 in
       liked s2 (user_id u) idComment ↔ liked s (user_id u) idComment).
Proof.
  split; intros claim.
  - destruct (claim bob 9%nat 0%nat draftStore
                (reachable_likesUnique _ reachable_draftStore)
                (not_liked_draftStore _ _)) as [l Hl].
    rewrite (likeComment_no_document bob 9%nat 0%nat draftStore
               (not_liked_draftStore _ _) eq_refl) in Hl.
    discriminate Hl.
  - pose proof (claim bob 9%nat 0%nat likedStore
                  (reachable_likesUnique _ reachable_likedStore)) as Htwice.
    cbn zeta in Htwice.
    assert (Hliked : liked likedStore (user_id bob) 0) by (by exists 0%nat).
    apply Htwice in Hliked. destruct Hliked as [i Hi]. revert Hi.
    change (likes (likeComment (Some bob) 9 0 (likeComment (Some bob) 9 0 likedStore).2).2)
      with (∅ : gmap nat like).
    by rewrite lookup_empty.
Qed.

(** C5. The like route as a toggle.  No database the server can reach
    holds two likes of one pair (user, comment), and the route keeps it
    so.  If the user has a like on the comment, it is removed and
    [null] is sent back, whatever document the route names.  If the
    user has none and the route names an existing document, one is
    created, stored and sent back.  If the user has none and the route
    names no document, the handler throws a [TypeError] at
    [document.author] and nothing is stored.  [Like.get] afterwards
    finds exactly what is stored for the pair, and the likes of other
    pairs are not touched.  On a route that names an existing document
    two toggles in a row bring the pair back to where it was; on a
    route that names none they leave the pair without a like. *)
Theorem likeComment_toggle :
  (∀ s, reachable s → likesUnique s) ∧
  (∀ (u : user) id idComment s,
     likesUnique s →
     let s1 := (likeComment (Some u) id idComment s).2 in
     let s2 := (likeComment (Some u) id idComment s1).2 in
     likesUnique s1 ∧
     (liked s (user_id u) idComment →
        (likeComment (Some u) id idComment s).1 = Returns None ∧
        ¬ liked s1 (user_id u) idComment) ∧
     (¬ liked s (user_id u) idComment → is_Some (documents s !! id) →
        ∃ l, (likeComment (Some u) id idComment s).1 = Returns (Some l) ∧
             data l = Like_ (user_id u) idComment ∧
             likes s !! _id l = None ∧
             likes s1 !! _id l = Some (data l) ∧
             liked s1 (user_id u) idComment) ∧
     (¬ liked s (user_id u) idComment → documents s !! id = None →
        likeComment (Some u) id idComment s = (Throws TypeError, s)) ∧
     (∀ l, Like.get (user_id u) idComment s1 = (Returns (Some l), s1)
           ↔ likes s1 !! _id l = Some (data l) ∧ data l = Like_ (user_id u) idComment) ∧
     (Like.get (user_id u) idComment s1 = (Returns None, s1)
           ↔ ¬ liked s1 (user_id u) idComment) ∧
     (is_Some (documents s !! id) →
        liked s2 (user_id u) idComment ↔ liked s (user_id u) idComment) ∧
     (documents s !! id = None → ¬ liked s2 (user_id u) idComment) ∧
     (∀ u' c', (u', c') ≠ (user_id u, idComment) → liked s1 u' c' ↔ liked s u' c')).
Proof.
  split; [exact reachable_likesUnique|].
  intros u id idComment s Huniq s1 s2.
  assert (Huniq1 : likesUnique s1) by (by apply likeComment_likesUnique).
  assert (Hget1 : Like.get (user_id u) idComment s1 = (Returns None, s1)
                  ↔ ¬ liked s1 (user_id u) idComment).
  { destruct (Like_get_cases s1 (user_id u) idComment) as [(i & Hget & Hi) | [Hget Hnot]];
      rewrite Hget; [|done].
    split; [done|]. intros Hnot. destruct Hnot. by exists i. }
  split; [done|].
  destruct (liked_dec s (user_id u) idComment) as [Hliked | Hnot].
  - (* the user has a like on the comment *)
    destruct (likeComment_untoggle u id idComment s Huniq Hliked)
      as (Hnull & Hgone & Hdocs & Hframe).
    fold s1 in Hgone, Hdocs, Hframe.
    split; [done|]. split; [done|]. split; [done|].
    split; [intros l; by apply Like_get_exact|]. split; [done|].
    split; [|split; [|done]].
    + intros [d Hd]. rewrite <- Hdocs in Hd.
      destruct (likeComment_toggle_once u id idComment s1 d Hd Huniq1)
        as (_ & _ & Hcreate & _).
      by destruct (Hcreate Hgone) as (l & _ & _ & _ & _ & Hliked2).
    + intros Hd. rewrite <- Hdocs in Hd. subst s2.
      by rewrite (likeComment_no_document u id idComment s1 Hgone Hd).
  - (* the user has no like on the comment *)
    split; [done|].
    destruct (documents s !! id) as [d|] eqn:Hd.
    + destruct (likeComment_toggle_once u id idComment s d Hd Huniq)
        as (_ & _ & Hcreate & _ & Hframe).
      fold s1 in Hcreate, Hframe.
      destruct (Hcreate Hnot) as (l & Hl & Hdata & Hfresh & Hstored & Hliked1).
      destruct (likeComment_untoggle u id idComment s1 Huniq1 Hliked1) as (_ & Hgone2 & _).
      fold s2 in Hgone2.
      split; [intros _ _; by exists l|]. split; [done|].
      split; [intros l'; by apply Like_get_exact|]. split; [done|].
      split; [done|]. split; [done|]. done.
    + pose proof (likeComment_no_document u id idComment s Hnot Hd) as Hrun.
      assert (Hs1 : s1 = s) by (subst s1; by rewrite Hrun).
      assert (Hs2 : s2 = s) by (subst s2; rewrite Hs1; by rewrite Hrun).
      split; [by intros _ [d' ?]|]. split; [done|].
      split; [intros l'; by apply Like_get_exact|]. split; [done|].
      split; [by intros [d' ?]|].
      split; [intros _; by rewrite Hs2|].
      intros u' c' _. by rewrite Hs1.
Qed.

Lemma likeComment_toggle_witness :
  ((likeComment (Some bob) 0 0 likedStore).1 = Returns None ∧
   ¬ liked (likeComment (Some bob) 0 0 likedStore).2 2 0) ∧
  (liked (likeComment (Some bob) 0 0 (likeComment (Some bob) 0 0 likedStore).2).2 2 0
   ↔ liked likedStore 2 0) ∧
  ((likeComment (Some bob) 9 0 likedStore).1 = Returns None ∧
   ¬ liked (likeComment (Some bob) 9 0 likedStore).2 2 0) ∧
  likeComment (Some bob) 9 0 draftStore = (Throws TypeError, draftStore) ∧
  ¬ liked (likeComment (Some bob) 9 0 (likeComment (Some bob) 9 0 likedStore).2).2 2 0.
Proof.
  destruct likeComment_toggle as [Hreach Htoggle].
  pose proof (Htoggle bob 0%nat 0%nat likedStore (Hreach likedStore reachable_likedStore))
    as (_ & Hremove & _ & _ & _ & _ & Htwice & _).
  pose proof (Htoggle bob 9%nat 0%nat likedStore (Hreach likedStore reachable_likedStore))
    as (_ & Hremove' & _ & _ & _ & _ & _ & Hlost & _).
  pose proof (Htoggle bob 9%nat 0%nat draftStore (Hreach draftStore reachable_draftStore))
    as (_ & _ & _ & Hthrows & _).
  split; [apply Hremove; by exists 0%nat|].
  split; [apply Htwice; by eexists|].
  split; [apply Hremove'; by exists 0%nat|].
  split; [|by apply Hlost].
  apply Hthrows; [|reflexivity].
  apply not_liked_draftStore.
Defined.

(** * Further properties of the routes *)

(** ** Refused updates and creations *)

(** X1. PUT /documents/:id on an id that names no document fails with
    [ErrNotFound], whoever asks; on a document of somebody else it
    fails with [ErrForbidden].  In both cases nothing is written: the
    decorations the request may carry are not applied. *)
Theorem putDocument_refused session id body s :
  (documents s !! id = None →
     putDocument session id body s = (Throws ErrNotFound, s)) ∧
  (∀ (u : user) d, session = Some u → documents s !! id = Some d →
     user_id u ≠ doc_author d →
     putDocument session id body s = (Throws ErrForbidden, s)).
Proof.
  split.
  - intros Hd. unfold putDocument, Document.get. exec. by rewrite Hd.
  - intros u d -> Hd Hother. unfold putDocument, Document.get, equals. exec.
    rewrite Hd. exec. by rewrite bool_decide_eq_false_2.
Qed.

Lemma putDocument_refused_witness :
  putDocument None 9 (PutBody (Some true) None None None None) draftStore
    = (Throws ErrNotFound, draftStore) ∧
  putDocument (Some carol) 0
      (PutBody (Some true) None (Some [(0%nat, Decoration "1:4")]) None None) draftStore
    = (Throws ErrForbidden, draftStore).
Proof.
  split.
  - by apply (proj1 (putDocument_refused None 9%nat _ draftStore)).
  - by apply (proj2 (putDocument_refused (Some carol) 0%nat _ draftStore)
                carol (Document_ 1 7 false None 0 1)).
Defined.

(** X2. POST /documents by a user who is below the creation limit, with
    a [customForm] slug that no form carries, fails with
    [ErrBadRequest] and creates nothing. *)
Theorem postDocument_unknown_form (u : user) body s :
  Z.of_nat (size (documentsOf s (user_id u)))
    < documentCreationLimit (accountable (permissions (theCommunity s))) →
  (∀ i form, customForms s !! i = Some form → cf_slug form ≠ post_customForm body) →
  postDocument (Some u) body s = (Throws ErrBadRequest, s).
Proof.
  intros Hbelow Hnone.
  unfold postDocument, Community.get, Document.countAuthorDocuments, CustomForm.getBySlug.
  exec. unfold documentsOf in Hbelow. rewrite bool_decide_eq_false_2 by lia.
  destruct (list_find _ _) as [[n [i form]]|] eqn:Hfind; [|done].
  apply list_find_Some in Hfind as (Hn & Hslug & _).
  apply list_elem_of_lookup_2, elem_of_map_to_list in Hn.
  by destruct (Hnone i form Hn).
Qed.

Lemma postDocument_unknown_form_witness :
  postDocument (Some bob) (PostBody "petition" openContent) draftStore
    = (Throws ErrBadRequest, draftStore).
Proof.
  apply postDocument_unknown_form; [by vm_compute|].
  intros i form.
  change (customForms draftStore) with ({[ 7%nat := projectForm ]} : gmap nat customForm).
  rewrite lookup_singleton_Some. by intros [_ <-].
Defined.

(** X3. POST /documents by a user below the creation limit, with a slug
    some form carries, stores a draft of that user whose [customForm]
    is a form with that slug and whose current version is version 1
    with the content sent.  The notifier is asked to schedule the
    closing of the new document in every case, with whatever
    [closingDate] the content has, an absent one included.  Comments
    and likes are not touched. *)
Theorem postDocument_created (u : user) body s i form :
  Z.of_nat (size (documentsOf s (user_id u)))
    < documentCreationLimit (accountable (permissions (theCommunity s))) →
  customForms s !! i = Some form →
  cf_slug form = post_customForm body →
  ∃ newDocument s',
    postDocument (Some u) body s = (Returns newDocument, s') ∧
    documents s !! _id newDocument = None ∧
    documents s' = <[_id newDocument := data newDocument]> (documents s) ∧
    doc_author (data newDocument) = user_id u ∧
    doc_published (data newDocument) = false ∧
    doc_commentsCount (data newDocument) = 0%nat ∧
    (∃ form', customForms s !! doc_customForm (data newDocument) = Some form' ∧
              cf_slug form' = post_customForm body) ∧
    versions s !! doc_currentVersion (data newDocument) = None ∧
    versions s' = <[doc_currentVersion (data newDocument) :=
                      DocumentVersion_ (_id newDocument) 1 (Some (post_content body)) []]>
                    (versions s) ∧
    outbox s' = SetDocumentCloses (_id newDocument) (closingDate (post_content body))
                  :: outbox s ∧
    comments s' = comments s ∧ likes s' = likes s.
Proof.
  intros Hbelow Hform Hslug.
  destruct (CustomForm_getBySlug_Some s i form Hform) as (r & Hget & Hr).
  rewrite Hslug in Hget.
  assert (Hr' : cf_slug (data r) = post_customForm body).
  { revert Hget. unfold CustomForm.getBySlug, gets.
    destruct (list_find _ _) as [[n [j f]]|] eqn:Hfind; [|done].
    apply list_find_Some in Hfind as (_ & Hf & _). by intros [= <-]. }
  unfold postDocument, Community.get, Document.countAuthorDocuments.
  exec. unfold documentsOf in Hbelow. rewrite bool_decide_eq_false_2 by lia.
  change (CustomForm.getBySlug (post_customForm body) s) with
    (let (o, s') := CustomForm.getBySlug (post_customForm body) s in (o, s')) at 1.
  unfold Document.create, notifier.setDocumentClosesNotification.
  rewrite Hget. exec.
  eexists _, _. split; [reflexivity|]. cbn.
  split; [apply freshId_None|]. split; [done|]. split; [done|]. split; [done|].
  split; [done|]. split; [by exists (data r)|].
  split; [apply freshId_None|]. done.
Qed.

Lemma postDocument_created_witness :
  ∃ newDocument s',
    postDocument (Some bob) (PostBody "project" openContent) draftStore
      = (Returns newDocument, s') ∧
    outbox s' = SetDocumentCloses (_id newDocument) JsUndefined :: outbox draftStore.
Proof.
  destruct (postDocument_created bob (PostBody "project" openContent) draftStore
              7%nat projectForm)
    as (newDocument & s' & Hrun & _ & _ & _ & _ & _ & _ & _ & _ & Hout & _);
    [by vm_compute | reflexivity | reflexivity |].
  by exists newDocument, s'.
Defined.

(** ** Creating comments *)

(** The comment route on an existing document whose form, current
    version and content resolve. *)
Lemma createComment_cases now (u : user) id body s d form v c :
  documents s !! id = Some d →
  customForms s !! doc_customForm d = Some form →
  versions s !! doc_currentVersion d = Some v →
  ver_content v = Some c →
  let newComment :=
    Comment_ (user_id u) id (doc_currentVersion d) (req_field body) (req_content body)
             (req_decoration body) false None in
  createComment now (Some u) id body s =
    if notFound (allowComments (cf_fields form)) (req_field body)
    then (Throws ErrInvalidParam, s)
    else if truthy (closingDate c) && date_lt (newDate (closingDate c)) (Some now)
    then (Throws ErrClosed, s)
    else (Returns (Row (freshId (comments s)) newComment),
          set_documents (alter Document.incrementComments id)
            (set_comments <[freshId (comments s) := newComment]> s)).
Proof.
  intros Hd Hf Hv Hc newComment.
  unfold createComment, currentClosingDate, Document.get, CustomForm.get, Comment.create,
    Document.addComment.
  exec. rewrite Hd. exec. rewrite Hf. exec.
  destruct (notFound _ _); [done|].
  rewrite Hv. exec. rewrite Hc. exec.
  destruct (truthy (closingDate c)); [destruct (date_lt _ _)|]; by exec.
Qed.

(** X4. A comment that passes the checks (the field is found in
    [allowComments], and the content of the current version has no
    closing date, or one that is not strictly before the current time:
    a comment sent at the very time of closing is still accepted) is
    stored under a fresh id for the session user, on the document and
    on the version that is current at that time, unresolved and without
    reply; the [commentsCount] of the document goes up by one, and
    neither another document, nor any version, like or notification is
    touched. *)
Theorem createComment_stored now (u : user) id body s d form v c :
  documents s !! id = Some d →
  customForms s !! doc_customForm d = Some form →
  versions s !! doc_currentVersion d = Some v →
  ver_content v = Some c →
  req_field body ∈ allowComments (cf_fields form) →
  req_field body ≠ EmptyString →
  (truthy (closingDate c) = false ∨ ∃ t, closingDate c = JsDateValue t ∧ now ≤ t) →
  ∃ newId s',
    createComment now (Some u) id body s
      = (Returns (Row newId (Comment_ (user_id u) id (doc_currentVersion d)
                                     (req_field body) (req_content body)
                                     (req_decoration body) false None)), s') ∧
    comments s !! newId = None ∧
    comments s' = <[newId := Comment_ (user_id u) id (doc_currentVersion d)
                               (req_field body) (req_content body)
                               (req_decoration body) false None]> (comments s) ∧
    documents s' = <[id := Document_ (doc_author d) (doc_customForm d) (doc_published d)
                             (doc_closed d) (doc_currentVersion d)
                             (S (doc_commentsCount d))]> (documents s) ∧
    versions s' = versions s ∧ likes s' = likes s ∧ outbox s' = outbox s.
Proof.
  intros Hd Hf Hv Hc Hin Hne Hopen.
  rewrite (createComment_cases now u id body s d form v c Hd Hf Hv Hc).
  rewrite notFound_elem by done.
  assert (truthy (closingDate c) && date_lt (newDate (closingDate c)) (Some now) = false)
    as ->.
  { destruct Hopen as [-> | (t & -> & Hle)]; [done|].
    cbn. by rewrite bool_decide_eq_false_2 by lia. }
  eexists _, _. split; [reflexivity|]. cbn.
  split; [apply freshId_None|]. split; [done|]. split; [|done].
  apply map_eq. intros j. rewrite lookup_alter, lookup_insert.
  case_decide; [subst j|done]. by rewrite Hd.
Qed.

Lemma createComment_stored_witness :
  ∃ newId s',
    createComment 50 (Some bob) 0 (CommentRequest "articles" "Just in time" None) closingStore
      = (Returns (Row newId (Comment_ 2 0 0 "articles" "Just in time" None false None)), s') ∧
    doc_commentsCount <$> documents s' !! 0%nat = Some 2%nat.
Proof.
  destruct (createComment_stored 50 bob 0%nat
              (CommentRequest "articles" "Just in time" None) closingStore
              (Document_ 1 7 true None 0 1) projectForm
              (DocumentVersion_ 0 1 (Some (datedContent 50)) []) (datedContent 50)
              eq_refl eq_refl eq_refl eq_refl)
    as (newId & s' & Hrun & _ & _ & Hdocs & _);
    [compute_done | discriminate | right; by exists 50 |].
  exists newId, s'. split; [exact Hrun|]. by rewrite Hdocs, lookup_insert_eq.
Defined.

(** X5. What GET /documents/:id reports as [closed] and what the
    comment route enforces differ in one case only.  For a field found
    in [allowComments]: whenever the comment route refuses with
    [ErrClosed], the flag computed by GET at the same time is true; and
    when that flag is true the comment route refuses with [ErrClosed]
    unless the closing date is [null], which GET reads as the epoch
    while the comment route takes it for no date and stores the
    comment. *)
Theorem createComment_closed_vs_flag now (u : user) id body s d form v c :
  documents s !! id = Some d →
  customForms s !! doc_customForm d = Some form →
  versions s !! doc_currentVersion d = Some v →
  ver_content v = Some c →
  req_field body ∈ allowComments (cf_fields form) →
  req_field body ≠ EmptyString →
  ∃ p, getDocument now (Some (User (doc_author d) [])) id s = (Returns p, s) ∧
    ((createComment now (Some u) id body s).1 = Throws ErrClosed →
       pd_closed (payload_document p) = Some true) ∧
    (pd_closed (payload_document p) = Some true →
       (createComment now (Some u) id body s).1 = Throws ErrClosed ∨
       (closingDate c = JsNull ∧ 0 < now ∧
        ∃ r, (createComment now (Some u) id body s).1 = Returns r)).
Proof.
  intros Hd Hf Hv Hc Hin Hne.
  destruct (getDocument_run now (Some (User (doc_author d) [])) id s d v c Hd Hv Hc)
    as (n1 & n2 & n3 & Hget).
  cbn zeta in Hget. cbn [user_id] in Hget.
  rewrite bool_decide_eq_true_2, andb_false_r in Hget by done.
  eexists. split; [exact Hget|]. cbn [payload_document setClosed pd_closed].
  rewrite (createComment_cases now u id body s d form v c Hd Hf Hv Hc).
  rewrite notFound_elem by done.
  unfold date_gt, date_lt. destruct (closingDate c) as [| |t|b]; cbn [truthy newDate andb].
  - by split.
  - split; [done|]. intros [= Hlt]. right. apply bool_decide_eq_true in Hlt.
    split; [done|]. split; [done|]. by eexists.
  - case_bool_decide; cbn [fst]; split; try done. by left.
  - rewrite andb_false_r. by split.
Qed.

Lemma createComment_closed_vs_flag_witness :
  (∃ p, getDocument 100 (Some (User 1 [])) 0 closingStore = (Returns p, closingStore) ∧
        pd_closed (payload_document p) = Some true ∧
        (createComment 100 (Some bob) 0 (CommentRequest "brief" "Late" None) closingStore).1
          = Throws ErrClosed) ∧
  (∃ p r, getDocument 100 (Some (User 1 [])) 0 nullDateStore = (Returns p, nullDateStore) ∧
          pd_closed (payload_document p) = Some true ∧
          (createComment 100 (Some bob) 0 (CommentRequest "brief" "Late" None)
                         nullDateStore).1 = Returns r).
Proof.
  split; cycle 1.
  { destruct (createComment_closed_vs_flag 100 bob 0%nat (CommentRequest "brief" "Late" None)
                nullDateStore (Document_ 1 7 false None 0 1) projectForm
                (DocumentVersion_ 0 1 (Some (Content "Water act" "On rivers" JsNull [])) [])
                (Content "Water act" "On rivers" JsNull [])
                eq_refl eq_refl eq_refl eq_refl)
      as (p & Hget & _ & Hflag); [compute_done | discriminate |].
    assert (Hclosed : pd_closed (payload_document p) = Some true).
    { vm_compute in Hget. by injection Hget as <-. }
    destruct (Hflag Hclosed) as [Hthrows | (_ & _ & r & Hr)]; [discriminate Hthrows|].
    by exists p, r. }
  destruct (createComment_closed_vs_flag 100 bob 0%nat (CommentRequest "brief" "Late" None)
              closingStore (Document_ 1 7 true None 0 1) projectForm
              (DocumentVersion_ 0 1 (Some (datedContent 50)) []) (datedContent 50)
              eq_refl eq_refl eq_refl eq_refl)
    as (p & Hget & Hclosed & _); [compute_done | discriminate |].
  exists p. split; [exact Hget|]. split; [|reflexivity].
  by apply Hclosed.
Defined.

(** ** Requests that end in an error *)

Lemma createComment_throws now session id body s e :
  (createComment now session id body s).1 = Throws e →
  (createComment now session id body s).2 = s.
Proof.
  unfold createComment, currentClosingDate, Document.get, CustomForm.get, Comment.create,
    Document.addComment.
  destruct session as [u|]; exec; [|done].
  destruct (documents s !! id) as [d|]; exec; [|done].
  destruct (customForms s !! doc_customForm d) as [form|]; exec; [|done].
  destruct (notFound _ _); exec; [done|].
  destruct (versions s !! doc_currentVersion d) as [v|]; exec; [|done].
  destruct (ver_content v) as [c|]; exec; [|done].
  by destruct (truthy (closingDate c)); [destruct (date_lt _ _)|].
Qed.

Lemma resolveComment_throws session id idComment s e :
  (resolveComment session id idComment s).1 = Throws e →
  (resolveComment session id idComment s).2 = s.
Proof.
  unfold resolveComment, Document.get, Comment.resolve, notifier.sendCommentNotification,
    equals.
  exec. destruct session as [u|]; exec; [|done].
  destruct (documents s !! id) as [d|]; exec; [|done].
  destruct (bool_decide _); exec; [|done].
  by destruct (comments s !! idComment).
Qed.

Lemma replyComment_throws session id idComment text s e :
  (replyComment session id idComment text s).1 = Throws e →
  (replyComment session id idComment text s).2 = s.
Proof.
  unfold replyComment, Document.get, Comment.reply, equals.
  exec. destruct session as [u|]; exec; [|done].
  destruct (documents s !! id) as [d|]; exec; [|done].
  destruct (bool_decide _); exec; [|done].
  by destruct (comments s !! idComment).
Qed.

Lemma likeComment_throws session id idComment s e :
  (likeComment session id idComment s).1 = Throws e →
  (likeComment session id idComment s).2 = s.
Proof.
  destruct session as [u|]; [|done].
  destruct (liked_dec s (user_id u) idComment) as [Hliked | Hnot].
  - by destruct (likeComment_remove u id idComment s Hliked) as (i & _ & ->).
  - destruct (documents s !! id) as [d|] eqn:Hd.
    + by rewrite (likeComment_create u id idComment s d Hnot Hd).
    + by rewrite (likeComment_no_document u id idComment s Hnot Hd).
Qed.

(** X6. In the routes that read a document, create a comment, resolve,
    reply and like, every [throw] comes before the first write: a
    request to one of them that ends in an error, whichever it is,
    leaves the database and the outbox of the notifier exactly as they
    were.  The routes that create and update a document are left out:
    in api/document.js each of them has a step that can throw after a
    write (the read of [req.body.content.closingDate] after
    [Document.create]; what follows [Comment.updateDecorations] and
    [DocumentVersion.create]). *)
Theorem failed_request_writes_nothing (r : request) s e :
  (∀ session body, r ≠ PostDocument session body) →
  (∀ session id body, r ≠ PutDocument session id body) →
  failure r s = Some e →
  serve r s = s.
Proof.
  intros Hpost Hput. unfold failure, thrown.
  destruct r; cbn [serve]; intros Hthrows.
  - by destruct (Hpost session body).
  - apply getDocument_reads.
  - by destruct (Hput session id body).
  - apply (createComment_throws now session id body s e).
    by destruct (createComment now session id body s).1; simplify_eq.
  - apply (resolveComment_throws session id idComment s e).
    by destruct (resolveComment session id idComment s).1; simplify_eq.
  - apply (likeComment_throws session id idComment s e).
    by destruct (likeComment session id idComment s).1; simplify_eq.
  - apply (replyComment_throws session id idComment reply s e).
    by destruct (replyComment session id idComment reply s).1; simplify_eq.
Qed.

Lemma failed_request_writes_nothing_witness :
  serve (ResolveComment (Some carol) 0 0) draftStore = draftStore ∧
  serve (CreateComment 100 (Some bob) 0 (CommentRequest "title" "Rename it" None)) draftStore
    = draftStore ∧
  serve (LikeComment (Some bob) 9 0) draftStore = draftStore.
Proof.
  split; [|split].
  - by apply (failed_request_writes_nothing _ draftStore ErrForbidden).
  - by apply (failed_request_writes_nothing _ draftStore ErrInvalidParam).
  - by apply (failed_request_writes_nothing _ draftStore TypeError).
Defined.

(** ** Resolving, replying and liking, again *)

(** X7. Every successful resolve calls the notifier with
    "comment-resolved" for the comment, whether the comment was
    resolved already or not: resolving twice sends two notifications.
    Documents, versions and likes are not touched. *)
Theorem resolveComment_notifies_every_time (u : user) id idComment s d c :
  documents s !! id = Some d →
  user_id u = doc_author d →
  comments s !! idComment = Some c →
  let s1 := (resolveComment (Some u) id idComment s).2 in
  let s2 := (resolveComment (Some u) id idComment s1).2 in
  outbox s1 = SendEmail "comment-resolved" idComment :: outbox s ∧
  outbox s2 = SendEmail "comment-resolved" idComment
                :: SendEmail "comment-resolved" idComment :: outbox s ∧
  documents s2 = documents s ∧ versions s2 = versions s ∧ likes s2 = likes s.
Proof.
  intros Hd Hauthor Hc s1 s2. subst s2 s1.
  rewrite (resolveComment_run u id idComment s d Hd).
  rewrite bool_decide_eq_true_2, Hc by done. cbn [snd].
  set (s1 := set_outbox _ _).
  assert (Hd1 : documents s1 !! id = Some d) by done.
  assert (Hc1 : comments s1 !! idComment = Some (Comment.markResolved c))
    by (by cbn; rewrite lookup_insert_eq).
  rewrite (resolveComment_run u id idComment s1 d Hd1).
  by rewrite bool_decide_eq_true_2, Hc1.
Qed.

Lemma resolveComment_notifies_every_time_witness :
  outbox (resolveComment (Some alice) 0 0 (resolveComment (Some alice) 0 0 draftStore).2).2
  = SendEmail "comment-resolved" 0 :: SendEmail "comment-resolved" 0 :: outbox draftStore.
Proof.
  apply (resolveComment_notifies_every_time alice 0%nat 0%nat draftStore
           (Document_ 1 7 false None 0 1)
           (Comment_ 2 0 0 "brief" "Too vague" None false None) eq_refl eq_refl eq_refl).
Defined.

(** X8. Replies and the resolved flag do not interfere.  A reply by the
    author changes nothing of the comment but its [reply], and sends no
    notification; of two replies in a row only the last is kept, as if
    the first had not been sent; and replying then resolving leaves the
    same comments as resolving then replying. *)
Theorem replyComment_composes (u : user) id idComment t1 t2 s d c :
  documents s !! id = Some d →
  user_id u = doc_author d →
  comments s !! idComment = Some c →
  let reply t s := (replyComment (Some u) id idComment t s).2 in
  let resolve s := (resolveComment (Some u) id idComment s).2 in
  comments (reply t1 s)
    = <[idComment := Comment_ (com_user c) (com_document c) (com_version c) (com_field c)
                              (com_content c) (com_decoration c) (com_resolved c)
                              (Some t1)]> (comments s) ∧
  outbox (reply t1 s) = outbox s ∧
  comments (reply t2 (reply t1 s)) = comments (reply t2 s) ∧
  comments (resolve (reply t1 s)) = comments (reply t1 (resolve s)).
Proof.
  intros Hd Hauthor Hc reply resolve. subst reply resolve. cbn beta.
  assert (Hreply : ∀ t s0 c0, documents s0 !! id = Some d → comments s0 !! idComment = Some c0 →
            replyComment (Some u) id idComment t s0
            = (Returns (Row idComment (Comment.withReply t c0)),
               set_comments <[idComment := Comment.withReply t c0]> s0)).
  { intros t s0 c0 Hd0 Hc0. rewrite (replyComment_run u id idComment t s0 d Hd0).
    by rewrite bool_decide_eq_true_2, Hc0. }
  assert (Hresolve : ∀ s0 c0, documents s0 !! id = Some d → comments s0 !! idComment = Some c0 →
            resolveComment (Some u) id idComment s0
            = (Returns (Row idComment (Comment.markResolved c0)),
               set_outbox (cons (SendEmail "comment-resolved" idComment))
                 (set_comments <[idComment := Comment.markResolved c0]> s0))).
  { intros s0 c0 Hd0 Hc0. rewrite (resolveComment_run u id idComment s0 d Hd0).
    by rewrite bool_decide_eq_true_2, Hc0. }
  rewrite !(Hreply _ s c Hd Hc). cbn [snd].
  split; [done|]. split; [done|]. split.
  - erewrite Hreply; [|done|by cbn; rewrite lookup_insert_eq].
    cbn. by rewrite insert_insert_eq.
  - erewrite Hresolve; [|done|by cbn; rewrite lookup_insert_eq].
    rewrite (Hresolve s c Hd Hc). cbn [snd].
    erewrite Hreply; [|done|by cbn; rewrite lookup_insert_eq].
    cbn. by rewrite !insert_insert_eq.
Qed.

Lemma replyComment_composes_witness :
  comments (replyComment (Some alice) 0 0 "Fixed"
              (replyComment (Some alice) 0 0 "Will fix" draftStore).2).2
  = comments (replyComment (Some alice) 0 0 "Fixed" draftStore).2.
Proof.
  apply (replyComment_composes alice 0%nat 0%nat "Will fix" "Fixed" draftStore
           (Document_ 1 7 false None 0 1)
           (Comment_ 2 0 0 "brief" "Too vague" None false None) eq_refl eq_refl eq_refl).
Defined.

Lemma Like_get_frame (f : gmap nat comment → gmap nat comment) user comment s :
  Like.get user comment (set_comments f s)
  = ((Like.get user comment s).1, set_comments f s).
Proof. done. Qed.

Lemma likeComment_found (u : user) id idComment s l :
  Like.get (user_id u) idComment s = (Returns (Some l), s) →
  likeComment (Some u) id idComment s = (Returns None, set_likes (delete (_id l)) s).
Proof.
  intros Hget. unfold likeComment. cbn [deref]. unfold ret at 1.
  rewrite (bind_returns _ _ _ u s) by done.
  by rewrite (bind_returns _ _ _ _ _ Hget).
Qed.

(** X9. The like route never looks at the comments: whatever the
    comments collection holds, the answer is the same and so is what is
    done to the likes and to the outbox.  In particular the comment
    named in the request need not exist for a like on it to be
    stored. *)
Theorem likeComment_never_reads_comments session id idComment s (cs : gmap nat comment) :
  likeComment session id idComment (set_comments (λ _, cs) s)
  = ((likeComment session id idComment s).1,
     set_comments (λ _, cs) (likeComment session id idComment s).2).
Proof.
  destruct session as [u|]; [|done].
  set (s' := set_comments (λ _, cs) s).
  destruct (Like_get_cases s (user_id u) idComment) as [(i & Hget & Hi) | [Hget Hnot]].
  - rewrite (likeComment_found u id idComment s _ Hget).
    rewrite (likeComment_found u id idComment s' (Row i (Like_ (user_id u) idComment)));
      [done|].
    unfold s'. by rewrite Like_get_frame, Hget.
  - assert (Hnot' : ¬ liked s' (user_id u) idComment) by done.
    destruct (documents s !! id) as [d|] eqn:Hd.
    + rewrite (likeComment_create u id idComment s d Hnot Hd).
      rewrite (likeComment_create u id idComment s' d Hnot' Hd).
      by case_bool_decide.
    + rewrite (likeComment_no_document u id idComment s Hnot Hd).
      by rewrite (likeComment_no_document u id idComment s' Hnot' Hd).
Qed.

Lemma likeComment_never_reads_comments_witness :
  ∃ created, (likeComment (Some bob) 0 9 (set_comments (λ _, ∅) draftStore)).1
             = Returns (Some created).
Proof.
  rewrite (likeComment_never_reads_comments (Some bob) 0%nat 9%nat draftStore ∅).
  by eexists.
Defined.

(** X10. The like route reads the document only when it creates a like.
    On an id that names no document, a user without a like on the
    comment gets a [TypeError] and no like is stored, while a user with
    a like on the comment has it removed as usual. *)
Theorem likeComment_missing_document (u : user) id idComment s :
  documents s !! id = None →
  (¬ liked s (user_id u) idComment →
     likeComment (Some u) id idComment s = (Throws TypeError, s)) ∧
  (liked s (user_id u) idComment →
     ∃ i, likes s !! i = Some (Like_ (user_id u) idComment) ∧
          likeComment (Some u) id idComment s = (Returns None, set_likes (delete i) s)).
Proof.
  intros Hd. split.
  - intros Hnot. by apply likeComment_no_document.
  - intros Hliked. by apply likeComment_remove.
Qed.

Lemma likeComment_missing_document_witness :
  likeComment (Some carol) 9 0 likedStore = (Throws TypeError, likedStore) ∧
  ∃ i, likeComment (Some bob) 9 0 likedStore = (Returns None, set_likes (delete i) likedStore).
Proof.
  split.
  - apply (proj1 (likeComment_missing_document carol 9%nat 0%nat likedStore eq_refl)).
    intros [i Hi]. revert Hi.
    change (likes likedStore) with ({[ 0%nat := Like_ 2 0 ]} : gmap nat like).
    rewrite lookup_singleton_Some. by intros [_ [=]].
  - destruct (proj2 (likeComment_missing_document bob 9%nat 0%nat likedStore eq_refl))
      as (i & _ & Hrun); [by exists 0%nat|].
    by exists i.
Defined.

(** ** Reading a document, again *)

(** X11. GET /documents/:id answers [ErrNotFound] for an id that names
    no document.  Whenever it delivers a document, the payload carries
    a [closed] flag, and the three aggregates (contributions,
    contributors, contextual comments) are part of the payload exactly
    when that flag is true.  The route writes nothing: the flag it
    computes is not saved. *)
Theorem getDocument_aggregates now session id s :
  (documents s !! id = None → getDocument now session id s = (Throws ErrNotFound, s)) ∧
  (∀ p, (getDocument now session id s).1 = Returns p →
     ∃ closed, pd_closed (payload_document p) = Some closed ∧
       (closed = true ↔ is_Some (payload_contributionsCount p)) ∧
       (closed = true ↔ is_Some (payload_contributorsCount p)) ∧
       (closed = true ↔ is_Some (payload_contextualCommentsCount p))) ∧
  (getDocument now session id s).2 = s.
Proof.
  split; [|split; [|apply getDocument_reads]].
  - intros Hd. unfold getDocument, Document.get. exec. by rewrite Hd.
  - intros p.
    unfold getDocument, currentClosingDate, Document.get, DocumentVersion.countContributions,
      Comment.count.
    exec. destruct (documents s !! id) as [d|]; exec; [|done].
    destruct (versions s !! doc_currentVersion d) as [v|]; exec; [|done].
    destruct (ver_content v) as [c|]; exec; [|done].
    destruct (negb (doc_published d) && _); exec; [done|].
    destruct (date_gt _ _); exec; intros [= <-]; eexists; (split; [reflexivity|]); cbn.
    + by repeat split.
    + repeat split; try done; by intros [? ?].
Qed.

Lemma getDocument_aggregates_witness :
  getDocument 100 None 9 draftStore = (Throws ErrNotFound, draftStore).
Proof. by apply (proj1 (getDocument_aggregates 100 None 9%nat draftStore)). Defined.

(** ** The notifications of an update *)

(** Rewriting decorations neither adds nor removes a comment. *)
Lemma decorate_lookup_is_Some version (decorations : list (Id * decoration))
    (cs : gmap nat comment) i :
  is_Some (foldl (Comment.decorate version) cs decorations !! i) ↔ is_Some (cs !! i).
Proof.
  revert cs. induction decorations as [|entry decorations IH]; intros cs; [done|].
  cbn [foldl]. rewrite IH. unfold Comment.decorate.
  destruct (cs !! entry.1) as [c|] eqn:Hc; [|done].
  case_decide; [|done].
  rewrite lookup_insert. case_decide; [subst i|done].
  rewrite Hc. by split; eauto.
Qed.

(** The outbox after an update by the author of an existing document
    whose current version resolves. *)
Lemma putDocument_outbox (u : user) id body s d v :
  documents s !! id = Some d →
  user_id u = doc_author d →
  versions s !! doc_currentVersion d = Some v →
  let decorated :=
    foldl (Comment.decorate (doc_currentVersion d)) (comments s)
          (default [] (put_decorations body)) in
  ∃ s',
    (putDocument (Some u) id body s).2 = s' ∧
    comments s' = decorated ∧
    outbox s' =
      (match put_content body with
       | Some c => if truthy (closingDate c)
                   then [SetDocumentCloses id (closingDate c)] else []
       | None => []
       end ++
       match put_contributions body with
       | Some (contribution :: contributions) =>
           rev ((λ c : row comment, SendEmail "comment-contribution" (_id c)) <$>
                ((λ p : nat * comment, Row p.1 p.2) <$>
                 map_to_list (filter (λ p : nat * comment,
                                        p.1 ∈ contribution :: contributions) decorated)))
       | _ => []
       end ++ outbox s)%list.
Proof.
  intros Hd Hauthor Hv decorated. subst decorated.
  unfold putDocument, Document.get, Comment.updateDecorations, CustomForm.get,
    DocumentVersion.create, DocumentVersion.update, Document.update, Comment.getAll,
    notifier.setDocumentClosesNotification, equals.
  exec. rewrite Hd. exec. rewrite bool_decide_eq_true_2 by done. exec. rewrite Hv.
  destruct (put_decorations body) as [[|entry entries]|];
    destruct (put_contributions body) as [[|contribution contributions]|].
  all: exec; rewrite ?Hv; exec; rewrite ?forEach_notify; exec; rewrite ?Hd; exec.
  all: destruct (put_content body) as [c|]; [destruct (truthy (closingDate c))|]; exec.
  all: by eexists.
Qed.

(** X12. What an accepted update sends to the notifier.  With a
    non-empty list of contributions, "comment-contribution" is sent
    once for every stored comment whose id is in the list: an id that
    names no comment is passed over, an id listed twice is notified
    once, and the document the comment was made on is not looked at.
    With no contributions nothing of that kind is sent.  The closing of
    the document is scheduled again exactly when the request carries a
    content whose [closingDate] is truthy. *)
Theorem putDocument_notifications (u : user) id body s d v :
  documents s !! id = Some d →
  user_id u = doc_author d →
  versions s !! doc_currentVersion d = Some v →
  ∃ closing contributed,
    outbox (putDocument (Some u) id body s).2 = (closing ++ contributed ++ outbox s)%list ∧
    closing = match put_content body with
              | Some c => if truthy (closingDate c)
                          then [SetDocumentCloses id (closingDate c)] else []
              | None => []
              end ∧
    NoDup contributed ∧
    ∀ e, e ∈ contributed ↔
         ∃ i, e = SendEmail "comment-contribution" i ∧
              i ∈ default [] (put_contributions body) ∧
              is_Some (comments s !! i).
Proof.
  intros Hd Hauthor Hv.
  destruct (putDocument_outbox u id body s d v Hd Hauthor Hv) as (s' & -> & _ & Hout).
  eexists _, _. split; [exact Hout|]. split; [done|].
  destruct (put_contributions body) as [[|contribution contributions]|]; cbn [default].
  1, 3: split; [constructor|]; intros e; split; [by intros ?%elem_of_nil|];
        by intros (i & _ & ?%elem_of_nil & _).
  set (decorated := foldl _ _ _).
  set (ids := contribution :: contributions).
  assert (Hmem : ∀ e,
    e ∈ ((λ c : row comment, SendEmail "comment-contribution" (_id c)) <$>
         ((λ p : nat * comment, Row p.1 p.2) <$>
          map_to_list (filter (λ p : nat * comment, p.1 ∈ ids) decorated)))
    ↔ ∃ i, e = SendEmail "comment-contribution" i ∧ i ∈ ids ∧ is_Some (comments s !! i)).
  { intros e. rewrite <- list_fmap_compose, list_elem_of_fmap. split.
    - intros ([i c] & -> & Hic). apply elem_of_map_to_list, map_lookup_filter_Some in Hic
        as [Hic Hin]. exists i. split; [done|]. split; [done|].
      apply (decorate_lookup_is_Some (doc_currentVersion d) (default [] (put_decorations body))).
      by eexists.
    - intros (i & -> & Hin & Hstored).
      apply (decorate_lookup_is_Some (doc_currentVersion d) (default [] (put_decorations body)))
        in Hstored as [c Hc].
      exists (i, c). split; [done|].
      by apply elem_of_map_to_list, map_lookup_filter_Some. }
  split.
  - rewrite <- Permutation_rev, <- list_fmap_compose.
    apply NoDup_fmap_2_strong.
    + intros [i c] [j c'] Hi Hj [= ->].
      apply elem_of_map_to_list in Hi, Hj. by simplify_map_eq.
    + apply NoDup_map_to_list.
  - intros e. by rewrite <- Permutation_rev.
Qed.

Lemma putDocument_notifications_witness :
  ∃ contributed,
    outbox (putDocument (Some alice) 0
              (PutBody None None None (Some (datedContent 50)) (Some [0%nat; 0%nat; 8%nat]))
              draftStore).2
      = ([SetDocumentCloses 0 (JsDateValue 50)] ++ contributed ++ outbox draftStore)%list ∧
    ∀ e, e ∈ contributed ↔
         ∃ i, e = SendEmail "comment-contribution" i ∧ i ∈ [0%nat; 0%nat; 8%nat] ∧
              is_Some (comments draftStore !! i).
Proof.
  destruct (putDocument_notifications alice 0%nat
              (PutBody None None None (Some (datedContent 50)) (Some [0%nat; 0%nat; 8%nat]))
              draftStore (Document_ 1 7 false None 0 1)
              (DocumentVersion_ 0 1 (Some openContent) []) eq_refl eq_refl eq_refl)
    as (closing & contributed & Hout & -> & _ & Hmem).
  by exists contributed.
Defined.

(** ** What a request can do to the collections *)

Lemma postDocument_effect session body s :
  let s' := (postDocument session body s).2 in
  comments s' = comments s ∧ likes s' = likes s ∧
  (s' = s ∨
   ∃ (u : user) form,
     session = Some u ∧
     documents s' = <[freshId (documents s) :=
                        Document_ (user_id u) form false None (freshId (versions s)) 0]>
                      (documents s) ∧
     versions s' = <[freshId (versions s) :=
                       DocumentVersion_ (freshId (documents s)) 1
                                        (Some (post_content body)) []]> (versions s)).
Proof.
  unfold postDocument, Community.get, Document.countAuthorDocuments, CustomForm.getBySlug,
    Document.create, notifier.setDocumentClosesNotification.
  exec. destruct session as [u|]; exec; [|by auto].
  destruct (bool_decide _); exec; [by auto|].
  destruct (_ <$> _) as [form|]; exec; [|by auto].
  split; [done|]. split; [done|]. right. by exists u, (_id form).
Qed.

Lemma putDocument_effect session id body s :
  let s' := (putDocument session id body s).2 in
  likes s' = likes s ∧
  (s' = s ∨
   ∃ (u : user) d v,
     session = Some u ∧ documents s !! id = Some d ∧ user_id u = doc_author d ∧
     versions s !! doc_currentVersion d = Some v ∧
     documents s' =
       <[id := Document.patch
                 (DocumentPatch (put_published body) (put_closed body)
                    (match put_contributions body with
                     | Some (_ :: _) => Some (freshId (versions s))
                     | _ => None
                     end)) d]> (documents s) ∧
     versions s' =
       match put_contributions body with
       | Some (contribution :: contributions) =>
           <[freshId (versions s) :=
               DocumentVersion_ id (ver_version v + 1) (put_content body)
                                (contribution :: contributions)]> (versions s)
       | _ => <[doc_currentVersion d := DocumentVersion.amend (put_content body) v]>
                (versions s)
       end ∧
     comments s' = foldl (Comment.decorate (doc_currentVersion d)) (comments s)
                         (default [] (put_decorations body))).
Proof.
  cbn zeta. split; [apply putDocument_likes|].
  destruct (documents s !! id) as [d|] eqn:Hd; cycle 1.
  { left. unfold putDocument, Document.get. exec. by rewrite Hd. }
  destruct session as [u|]; cycle 1.
  { left. unfold putDocument, Document.get. exec. by rewrite Hd. }
  destruct (decide (user_id u = doc_author d)) as [Hauthor | Hother]; cycle 1.
  { left. unfold putDocument, Document.get, equals. exec. rewrite Hd. exec.
    by rewrite bool_decide_eq_false_2. }
  destruct (versions s !! doc_currentVersion d) as [v|] eqn:Hv; cycle 1.
  { left. unfold putDocument, Document.get, equals, CustomForm.get. exec. rewrite Hd. exec.
    rewrite bool_decide_eq_true_2 by done. exec. rewrite Hv.
    destruct (put_decorations body) as [[|entry entries]|]; exec; try done.
    all: by destruct (put_contributions body) as [[|contribution contributions]|]. }
  right. exists u, d, v.
  destruct (putDocument_run u id body s d v Hd Hauthor Hv) as (s' & Hrun & Hdocs & Hvers & _).
  destruct (putDocument_outbox u id body s d v Hd Hauthor Hv) as (s'' & Hrun' & Hcomments & _).
  rewrite Hrun in Hrun' |- *. cbn [snd] in Hrun' |- *. subst s''.
  by repeat split.
Qed.

Lemma createComment_effect now session id body s :
  let s' := (createComment now session id body s).2 in
  versions s' = versions s ∧ likes s' = likes s ∧ outbox s' = outbox s ∧
  (s' = s ∨
   ∃ (u : user) d v,
     session = Some u ∧ documents s !! id = Some d ∧
     versions s !! doc_currentVersion d = Some v ∧
     documents s' = <[id := Document.incrementComments d]> (documents s) ∧
     comments s' = <[freshId (comments s) :=
                       Comment_ (user_id u) id (doc_currentVersion d) (req_field body)
                                (req_content body) (req_decoration body) false None]>
                     (comments s)).
Proof.
  unfold createComment, currentClosingDate, Document.get, CustomForm.get, Comment.create,
    Document.addComment.
  destruct session as [u|]; exec; [|by auto].
  destruct (documents s !! id) as [d|] eqn:Hd; exec; [|by auto].
  destruct (customForms s !! doc_customForm d) as [form|]; exec; [|by auto].
  destruct (notFound _ _); exec; [by auto|].
  destruct (versions s !! doc_currentVersion d) as [v|] eqn:Hv; exec; [|by auto].
  destruct (ver_content v) as [c|]; exec; [|by auto].
  destruct (truthy (closingDate c)); [destruct (date_lt _ _)|]; exec; try by auto.
  all: split; [done|]; split; [done|]; split; [done|]; right; exists u, d, v.
  all: repeat split; try done.
  all: apply map_eq; intros j; rewrite lookup_alter, lookup_insert.
  all: case_decide; [subst j|done]; by rewrite Hd.
Qed.

Lemma resolveComment_effect session id idComment s :
  let s' := (resolveComment session id idComment s).2 in
  documents s' = documents s ∧ versions s' = versions s ∧ likes s' = likes s ∧
  (s' = s ∨
   ∃ (u : user) d c,
     session = Some u ∧ documents s !! id = Some d ∧ user_id u = doc_author d ∧
     comments s !! idComment = Some c ∧
     comments s' = <[idComment := Comment.markResolved c]> (comments s)).
Proof.
  cbn zeta. destruct session as [u|]; cycle 1.
  { unfold resolveComment, Document.get. exec. by auto. }
  destruct (documents s !! id) as [d|] eqn:Hd; cycle 1.
  { unfold resolveComment, Document.get. exec. rewrite Hd. by auto. }
  rewrite (resolveComment_run u id idComment s d Hd).
  case_bool_decide as Hauthor; [|by auto].
  destruct (comments s !! idComment) as [c|] eqn:Hc; [|by auto].
  split; [done|]. split; [done|]. split; [done|]. right. by exists u, d, c.
Qed.

Lemma replyComment_effect session id idComment text s :
  let s' := (replyComment session id idComment text s).2 in
  documents s' = documents s ∧ versions s' = versions s ∧ likes s' = likes s ∧
  outbox s' = outbox s ∧
  (s' = s ∨
   ∃ (u : user) d c,
     session = Some u ∧ documents s !! id = Some d ∧ user_id u = doc_author d ∧
     comments s !! idComment = Some c ∧
     comments s' = <[idComment := Comment.withReply text c]> (comments s)).
Proof.
  cbn zeta. destruct session as [u|]; cycle 1.
  { unfold replyComment, Document.get. exec. by auto 8. }
  destruct (documents s !! id) as [d|] eqn:Hd; cycle 1.
  { unfold replyComment, Document.get. exec. rewrite Hd. by auto 8. }
  rewrite (replyComment_run u id idComment text s d Hd).
  case_bool_decide as Hauthor; [|by auto 8].
  destruct (comments s !! idComment) as [c|] eqn:Hc; [|by auto 8].
  split; [done|]. split; [done|]. split; [done|]. split; [done|].
  right. by exists u, d, c.
Qed.

Lemma likeComment_effect session id idComment s :
  let s' := (likeComment session id idComment s).2 in
  documents s' = documents s ∧ versions s' = versions s ∧ comments s' = comments s.
Proof.
  cbn zeta. destruct session as [u|]; [|done].
  destruct (liked_dec s (user_id u) idComment) as [Hliked | Hnot].
  - by destruct (likeComment_remove u id idComment s Hliked) as (i & _ & ->).
  - destruct (documents s !! id) as [d|] eqn:Hd.
    + rewrite (likeComment_create u id idComment s d Hnot Hd). by case_bool_decide.
    + by rewrite (likeComment_no_document u id idComment s Hnot Hd).
Qed.

(** Rewriting decorations changes nothing of a comment but its
    decoration, and that only for a comment of the version given. *)
Lemma decorate_lookup version (decorations : list (Id * decoration))
    (cs : gmap nat comment) i c :
  cs !! i = Some c →
  ∃ dec, foldl (Comment.decorate version) cs decorations !! i
         = Some (Comment_ (com_user c) (com_document c) (com_version c) (com_field c)
                          (com_content c) dec (com_resolved c) (com_reply c)) ∧
         (dec ≠ com_decoration c → com_version c = version).
Proof.
  revert cs c. induction decorations as [|entry decorations IH]; intros cs c Hc.
  - exists (com_decoration c). split; [by destruct c|done].
  - cbn [foldl]. unfold Comment.decorate at 2.
    destruct (cs !! entry.1) as [c0|] eqn:Hc0; [|by apply IH].
    case_decide as Hversion; [|by apply IH].
    destruct (decide (entry.1 = i)) as [<- | Hne].
    + rewrite Hc in Hc0. injection Hc0 as <-.
      destruct (IH (<[entry.1 := Comment.withDecoration entry.2 c]> cs)
                   (Comment.withDecoration entry.2 c)) as (dec & Hdec & _);
        [by rewrite lookup_insert_eq|].
      exists dec. by split.
    + apply IH. by rewrite lookup_insert_ne.
Qed.

(** The routes written out as the changes they can make to documents,
    versions and comments. *)
Lemma serve_effect r s :
  let s' := serve r s in
  (documents s' = documents s ∧ versions s' = versions s ∧ comments s' = comments s) ∨
  (∃ (u : user) body form,
     r = PostDocument (Some u) body ∧ comments s' = comments s ∧
     documents s' = <[freshId (documents s) :=
                        Document_ (user_id u) form false None (freshId (versions s)) 0]>
                      (documents s) ∧
     versions s' = <[freshId (versions s) :=
                       DocumentVersion_ (freshId (documents s)) 1
                                        (Some (post_content body)) []]> (versions s)) ∨
  (∃ (u : user) id body d v,
     r = PutDocument (Some u) id body ∧
     documents s !! id = Some d ∧ user_id u = doc_author d ∧
     versions s !! doc_currentVersion d = Some v ∧
     documents s' =
       <[id := Document.patch
                 (DocumentPatch (put_published body) (put_closed body)
                    (match put_contributions body with
                     | Some (_ :: _) => Some (freshId (versions s))
                     | _ => None
                     end)) d]> (documents s) ∧
     versions s' =
       match put_contributions body with
       | Some (contribution :: contributions) =>
           <[freshId (versions s) :=
               DocumentVersion_ id (ver_version v + 1) (put_content body)
                                (contribution :: contributions)]> (versions s)
       | _ => <[doc_currentVersion d := DocumentVersion.amend (put_content body) v]>
                (versions s)
       end ∧
     comments s' = foldl (Comment.decorate (doc_currentVersion d)) (comments s)
                         (default [] (put_decorations body))) ∨
  (∃ now (u : user) id body d v,
     r = CreateComment now (Some u) id body ∧
     documents s !! id = Some d ∧ versions s !! doc_currentVersion d = Some v ∧
     versions s' = versions s ∧
     documents s' = <[id := Document.incrementComments d]> (documents s) ∧
     comments s' = <[freshId (comments s) :=
                       Comment_ (user_id u) id (doc_currentVersion d) (req_field body)
                                (req_content body) (req_decoration body) false None]>
                     (comments s)) ∨
  (∃ (u : user) id idComment d c,
     (r = ResolveComment (Some u) id idComment ∧
      comments s' = <[idComment := Comment.markResolved c]> (comments s) ∨
      ∃ text, r = ReplyComment (Some u) id idComment text ∧
              comments s' = <[idComment := Comment.withReply text c]> (comments s)) ∧
     documents s !! id = Some d ∧ user_id u = doc_author d ∧
     comments s !! idComment = Some c ∧
     documents s' = documents s ∧ versions s' = versions s).
Proof.
  destruct r; cbn [serve].
  - destruct (postDocument_effect session body s) as (Hc & _ & [-> | (u & form & -> & Hd & Hv)]);
      [by left|].
    right; left. by exists u, body, form.
  - left. by rewrite getDocument_reads.
  - destruct (putDocument_effect session id body s)
      as (_ & [-> | (u & d & v & -> & Hd & Ha & Hv & Hdocs & Hvers & Hcs)]); [by left|].
    right; right; left. by exists u, id, body, d, v.
  - destruct (createComment_effect now session id body s)
      as (Hvers & _ & _ & [-> | (u & d & v & -> & Hd & Hv & Hdocs & Hcs)]); [by left|].
    right; right; right; left. by exists now, u, id, body, d, v.
  - destruct (resolveComment_effect session id idComment s)
      as (Hdocs & Hvers & _ & [-> | (u & d & c & -> & Hd & Ha & Hc & Hcs)]); [by left|].
    right; right; right; right. exists u, id, idComment, d, c. by auto 8.
  - left. apply likeComment_effect.
  - destruct (replyComment_effect session id idComment reply s)
      as (Hdocs & Hvers & _ & _ & [-> | (u & d & c & -> & Hd & Ha & Hc & Hcs)]); [by left|].
    right; right; right; right. exists u, id, idComment, d, c.
    split; [right; by exists reply|]. by auto.
Qed.

(** ** What no request undoes *)

(** X13. No route removes a document or changes its author or its
    form, and [commentsCount] never goes down.  The [published] flag,
    the stored [closed] flag and the pointer to the current version of
    a document change only through a PUT on that document sent by its
    author. *)
Theorem serve_keeps_documents r s id d :
  documents s !! id = Some d →
  ∃ d', documents (serve r s) !! id = Some d' ∧
        doc_author d' = doc_author d ∧
        doc_customForm d' = doc_customForm d ∧
        (doc_commentsCount d ≤ doc_commentsCount d')%nat ∧
        (doc_published d' ≠ doc_published d ∨ doc_closed d' ≠ doc_closed d ∨
         doc_currentVersion d' ≠ doc_currentVersion d →
         ∃ (u : user) body, r = PutDocument (Some u) id body ∧ user_id u = doc_author d).
Proof.
  intros Hd.
  destruct (serve_effect r s)
    as [(Hdocs & _) | [(u & body & form & _ & _ & Hdocs & _) |
       [(u & id0 & body & d0 & v & -> & Hd0 & Ha & _ & Hdocs & _) |
       [(now & u & id0 & body & d0 & v & _ & Hd0 & _ & _ & Hdocs & _) |
        (u & id0 & i & d0 & c & _ & _ & _ & _ & Hdocs & _)]]]];
    rewrite Hdocs.
  - exists d. repeat split; try done. by intros [|[|]].
  - rewrite lookup_insert_ne by (intros <-; by rewrite freshId_None in Hd).
    exists d. repeat split; try done. by intros [|[|]].
  - rewrite lookup_insert. case_decide as Hid.
    + subst id0. rewrite Hd in Hd0. injection Hd0 as <-.
      eexists. split; [done|]. repeat split; try done. intros _. by exists u, body.
    + exists d. repeat split; try done. by intros [|[|]].
  - rewrite lookup_insert. case_decide as Hid.
    + subst id0. rewrite Hd in Hd0. injection Hd0 as <-.
      eexists. split; [done|]. cbn. repeat split; try done; [lia|]. by intros [|[|]].
    + exists d. repeat split; try done. by intros [|[|]].
  - exists d. repeat split; try done. by intros [|[|]].
Qed.

Lemma serve_keeps_documents_witness :
  ∃ d', documents (serve (PutDocument (Some carol) 0
                            (PutBody (Some true) (Some true) None None None)) draftStore)
          !! 0%nat = Some d' ∧
        doc_author d' = 1%nat ∧ doc_published d' = false.
Proof.
  destruct (serve_keeps_documents
              (PutDocument (Some carol) 0 (PutBody (Some true) (Some true) None None None))
              draftStore 0%nat (Document_ 1 7 false None 0 1) eq_refl)
    as (d' & Hd' & Hauthor & _ & _ & Hchange).
  exists d'. split; [exact Hd'|]. split; [exact Hauthor|].
  destruct (doc_published d') eqn:Hpub; [|done].
  destruct Hchange as (u & body & [= <- _] & Hu); [by left|]. discriminate Hu.
Defined.





(** ** Invariants of the comments and of the version numbers *)

(** The number of comments on a document only depends on the documents
    the comments name. *)
Lemma size_commentsOn_ext s s' id :
  (∀ i, com_document <$> comments s' !! i = com_document <$> comments s !! i) →
  size (commentsOn s' id) = size (commentsOn s id).
Proof.
  intros Hsame. unfold commentsOn.
  assert (Hfmap : com_document <$> comments s' = com_document <$> comments s).
  { apply map_eq. intros i. by rewrite !lookup_fmap. }
  assert (Hfilter : ∀ cs : gmap nat comment,
    size (filter (λ p : nat * comment, com_document p.2 = id) cs)
    = size (filter (λ p : nat * Id, p.2 = id) (com_document <$> cs))).
  { intros cs. by rewrite map_filter_fmap, map_size_fmap. }
  by rewrite !Hfilter, Hfmap.
Qed.

Lemma documents_persist r s id :
  is_Some (documents s !! id) → is_Some (documents (serve r s) !! id).
Proof.
  intros [d Hd].
  destruct (serve_effect r s)
    as [(Hds & _) | [(u & body & form & _ & _ & Hds & _) |
       [(u & id0 & body & d0 & v & _ & _ & _ & _ & Hds & _) |
       [(now & u & id0 & body & d0 & v & _ & _ & _ & _ & Hds & _) |
        (u & id0 & i0 & d0 & c0 & _ & _ & _ & _ & Hds & _)]]]];
    rewrite Hds, ?lookup_insert; try case_decide; by rewrite ?Hd.
Qed.

Lemma versions_persist r s j w :
  versions s !! j = Some w →
  ∃ w', versions (serve r s) !! j = Some w' ∧ link w' = link w ∧
        ver_contributions w' = ver_contributions w.
Proof.
  intros Hw.
  destruct (serve_effect r s)
    as [(_ & Hvs & _) | [(u & body & form & _ & _ & _ & Hvs) |
       [(u & id0 & body & d0 & v & _ & _ & _ & Hv & _ & Hvs & _) |
       [(now & u & id0 & body & d0 & v & _ & _ & _ & Hvs & _) |
        (u & id0 & i0 & d0 & c0 & _ & _ & _ & _ & _ & Hvs)]]]];
    rewrite Hvs; try by exists w.
  - rewrite lookup_insert_ne by (intros <-; by rewrite freshId_None in Hw). by exists w.
  - destruct (put_contributions body) as [[|contribution contributions]|].
    2: { rewrite lookup_insert_ne by (intros <-; by rewrite freshId_None in Hw).
         by exists w. }
    all: rewrite lookup_insert; case_decide as Hj; [|by exists w].
    all: subst j; rewrite Hv in Hw; injection Hw as <-.
    all: by eexists.
Qed.

Lemma comments_persist r s i c :
  comments s !! i = Some c →
  ∃ c', comments (serve r s) !! i = Some c' ∧
        com_document c' = com_document c ∧ com_version c' = com_version c.
Proof.
  intros Hc.
  destruct (serve_effect r s)
    as [(_ & _ & Hcs) | [(u & body & form & _ & Hcs & _) |
       [(u & id0 & body & d0 & v & _ & _ & _ & _ & _ & _ & Hcs) |
       [(now & u & id0 & body & d0 & v & _ & _ & _ & _ & _ & Hcs) |
        (u & id0 & i0 & d0 & c0 & Hr & _ & _ & Hc0 & _)]]]].
  - rewrite Hcs. by exists c.
  - rewrite Hcs. by exists c.
  - rewrite Hcs.
    destruct (decorate_lookup (doc_currentVersion d0) (default [] (put_decorations body))
                (comments s) i c Hc) as (dec & -> & _).
    by eexists.
  - rewrite Hcs, lookup_insert_ne by (intros <-; by rewrite freshId_None in Hc).
    by exists c.
  - destruct Hr as [[_ Hcs] | (text & _ & Hcs)]; rewrite Hcs, lookup_insert.
    all: case_decide as Hi; [|by exists c].
    all: subst i0; rewrite Hc in Hc0; injection Hc0 as <-.
    all: by eexists.
Qed.

Lemma commentsWellFormed_serve r s :
  versionsWellFormed s → commentsWellFormed s → commentsWellFormed (serve r s).
Proof.
  intros Hwf [Hanchored Hcounted].
  pose proof (documents_persist r s) as Hdocs.
  assert (Hvers : ∀ j w, versions s !! j = Some w →
            ∃ w', versions (serve r s) !! j = Some w' ∧ ver_document w' = ver_document w).
  { intros j w Hw. destruct (versions_persist r s j w Hw) as (w' & ? & [= ? ?] & _).
    by exists w'. }
  assert (Hold : ∀ c, is_Some (documents s !! com_document c) ∧
                      (∃ w, versions s !! com_version c = Some w ∧
                            ver_document w = com_document c) →
                      is_Some (documents (serve r s) !! com_document c) ∧
                      (∃ w, versions (serve r s) !! com_version c = Some w ∧
                            ver_document w = com_document c)).
  { intros c [Hd (w & Hw & Hwd)]. split; [by apply Hdocs|].
    destruct (Hvers _ w Hw) as (w' & Hw' & Hwd'). exists w'. split; [done|]. congruence. }
  destruct (serve_effect r s)
    as [(Hds & Hvs & Hcs) | [(u & body & form & _ & Hcs & Hds & Hvs) |
       [(u & id0 & body & d0 & v & Hr & Hd0 & Ha & Hv & Hds & Hvs & Hcs) |
       [(now & u & id0 & body & d0 & v & Hr & Hd0 & Hv & Hvs & Hds & Hcs) |
        (u & id0 & i0 & d0 & c0 & Hr & Hd0 & _ & Hc0 & Hds & Hvs)]]]].
  - (* nothing but likes and notifications *)
    split.
    + intros i c. rewrite Hcs. intros Hc. apply Hold. by apply (Hanchored i).
    + intros id d. rewrite Hds. intros Hd. rewrite (Hcounted id d Hd).
      symmetry. apply size_commentsOn_ext. intros i. by rewrite Hcs.
  - (* a new document *)
    split.
    + intros i c. rewrite Hcs. intros Hc. apply Hold. by apply (Hanchored i).
    + intros id d. rewrite Hds, lookup_insert. case_decide as Hid.
      * subst id. intros [= <-]. cbn. symmetry. apply map_size_empty_iff.
        apply map_empty_filter, map_Forall_lookup. intros i c. rewrite Hcs.
        intros Hc Hdoc. cbn in Hdoc.
        destruct (Hanchored i c Hc) as [[d Hd] _]. rewrite Hdoc in Hd.
        by rewrite freshId_None in Hd.
      * intros Hd. rewrite (Hcounted id d Hd).
        symmetry. apply size_commentsOn_ext. intros i. by rewrite Hcs.
  - (* an update *)
    assert (Hsame : ∀ i, com_document <$> comments (serve r s) !! i
                         = com_document <$> comments s !! i).
    { intros i. rewrite Hcs. destruct (comments s !! i) as [c|] eqn:Hc.
      - destruct (decorate_lookup (doc_currentVersion d0)
                    (default [] (put_decorations body)) (comments s) i c Hc) as (dec & -> & _).
        done.
      - destruct (foldl _ _ _ !! i) eqn:Hf; [|done].
        assert (is_Some (comments s !! i)) as [? ?]; [|congruence].
        apply (decorate_lookup_is_Some (doc_currentVersion d0)
                 (default [] (put_decorations body))). by eexists. }
    split.
    + intros i c Hc.
      destruct (comments s !! i) as [c1|] eqn:Hc1.
      * destruct (comments_persist r s i c1 Hc1) as (c' & Hc' & Hdoc & Hver).
        rewrite Hc in Hc'. injection Hc' as <-. rewrite Hdoc, Hver.
        destruct (Hold c1 (Hanchored i c1 Hc1)) as [? ?]. by split.
      * specialize (Hsame i). rewrite Hc, Hc1 in Hsame. done.
    + intros id d. rewrite Hds, lookup_insert. case_decide as Hid.
      * subst id0. intros [= <-]. cbn. rewrite (Hcounted id d0 Hd0).
        symmetry. by apply size_commentsOn_ext.
      * intros Hd. rewrite (Hcounted id d Hd). symmetry. by apply size_commentsOn_ext.
  - (* a new comment *)
    destruct (current_latest s Hwf id0 d0 Hd0) as (v0 & Hv0 & Hv0doc & _).
    assert (v0 = v) as -> by congruence.
    split.
    + intros i c. rewrite Hcs, lookup_insert. case_decide as Hi.
      * intros [= <-]. cbn. split; [apply Hdocs; by eexists|].
        destruct (Hvers _ v Hv) as (w' & Hw' & Hwd'). exists w'. split; [done|]. congruence.
      * intros Hc. apply Hold. by apply (Hanchored i).
    + intros id d. rewrite Hds, lookup_insert. unfold commentsOn. rewrite Hcs.
      case_decide as Hid.
      * subst id. intros [= <-]. cbn.
        rewrite map_filter_insert_True by done.
        rewrite map_size_insert_None
          by (apply map_lookup_filter_None; left; apply freshId_None).
        f_equal. apply (Hcounted id0 d0 Hd0).
      * intros Hd. rewrite map_filter_insert_False by (cbn; congruence).
        rewrite delete_id by apply freshId_None. apply (Hcounted id d Hd).
  - (* a comment resolved or answered *)
    assert (Hsame : ∀ i, com_document <$> comments (serve r s) !! i
                         = com_document <$> comments s !! i).
    { intros i. destruct Hr as [[_ Hcs] | (text & _ & Hcs)]; rewrite Hcs, lookup_insert.
      all: case_decide; [subst i0|done]. all: by rewrite Hc0. }
    split.
    + intros i c Hc.
      destruct (comments s !! i) as [c1|] eqn:Hc1.
      * destruct (comments_persist r s i c1 Hc1) as (c' & Hc' & Hdoc & Hver).
        rewrite Hc in Hc'. injection Hc' as <-. rewrite Hdoc, Hver.
        destruct (Hold c1 (Hanchored i c1 Hc1)) as [? ?]. by split.
      * specialize (Hsame i). rewrite Hc, Hc1 in Hsame. done.
    + intros id d. rewrite Hds. intros Hd. rewrite (Hcounted id d Hd).
      symmetry. by apply size_commentsOn_ext.
Qed.

Lemma versionsNumbered_serve r s :
  versionsWellFormed s → versionsNumbered s → versionsNumbered (serve r s).
Proof.
  intros Hwf [Hone Hgaps].
  assert (Hone_old : ∀ j w w', versions s !! j = Some w → versions (serve r s) !! j = Some w' →
            1 ≤ ver_version w' ∧ (ver_version w' = 1 ↔ ver_contributions w' = [])).
  { intros j w w' Hw Hw'.
    destruct (versions_persist r s j w Hw) as (w'' & Hw'' & [= Hdoc Hnum] & Hcontrib).
    assert (w'' = w') as -> by congruence.
    rewrite Hnum, Hcontrib. by apply (Hone j). }
  assert (Hgaps_old : ∀ id d d' v',
            documents s !! id = Some d → doc_currentVersion d' = doc_currentVersion d →
            versions (serve r s) !! doc_currentVersion d' = Some v' →
            ∀ k, 1 ≤ k ≤ ver_version v' →
                 ∃ j w, versions (serve r s) !! j = Some w ∧ ver_document w = id ∧
                        ver_version w = k).
  { intros id d d' v' Hd Hcur Hv' k Hk.
    destruct (current_latest s Hwf id d Hd) as (v & Hv & _).
    destruct (versions_persist r s _ v Hv) as (v'' & Hv'' & [= Hdoc Hnum] & _).
    rewrite Hcur in Hv'. assert (v'' = v') as -> by congruence.
    destruct (Hgaps id d v Hd Hv k) as (j & w & Hw & Hwdoc & Hwnum); [lia|].
    destruct (versions_persist r s j w Hw) as (w' & Hw' & [= Hdoc' Hnum'] & _).
    exists j, w'. split; [done|]. split; congruence. }
  destruct (serve_effect r s)
    as [(Hds & Hvs & _) | [(u & body & form & _ & _ & Hds & Hvs) |
       [(u & id0 & body & d0 & v & _ & Hd0 & _ & Hv & Hds & Hvs & _) |
       [(now & u & id0 & body & d0 & v & _ & Hd0 & _ & Hvs & Hds & _) |
        (u & id0 & i0 & d0 & c0 & _ & _ & _ & _ & Hds & Hvs)]]]].
  - split.
    + intros j w Hw. apply (Hone_old j w w); [by rewrite <- Hvs|done].
    + intros id d v. rewrite Hds. intros Hd. by apply (Hgaps_old id d d).
  - split.
    + intros j w Hw. pose proof Hw as Hw'. rewrite Hvs, lookup_insert in Hw'.
      case_decide; [by injection Hw' as <-|]. by apply (Hone_old j w w).
    + intros id d v' Hd. rewrite Hds, lookup_insert in Hd. case_decide as Hid.
      * subst id. injection Hd as <-. cbn [doc_currentVersion].
        rewrite Hvs, lookup_insert_eq. intros [= <-] k Hk. cbn in Hk.
        exists (freshId (versions s)). eexists. rewrite lookup_insert_eq.
        split; [done|]. cbn. split; [done|lia].
      * by apply (Hgaps_old id d d).
  - destruct (Hone _ v Hv) as [Hv1 _].
    destruct (put_contributions body) as [[|contribution contributions]|] eqn:Hcontrib.
    2: { split.
         - intros j w Hw. pose proof Hw as Hw'. rewrite Hvs, lookup_insert in Hw'.
           case_decide; [|by apply (Hone_old j w w)].
           injection Hw' as <-. cbn. split; [lia|]. split; [lia|done].
         - intros id d v' Hd. rewrite Hds, lookup_insert in Hd. case_decide as Hid.
           + subst id0. injection Hd as <-. cbn [Document.patch doc_currentVersion default
               p_currentVersion].
             rewrite Hvs, lookup_insert_eq. intros [= <-] k Hk. cbn in Hk.
             destruct (decide (k = ver_version v + 1)) as [-> | Hne].
             * exists (freshId (versions s)). eexists. rewrite lookup_insert_eq. by split.
             * destruct (Hgaps id d0 v Hd0 Hv k) as (j & w & Hw & Hwdoc & Hwnum); [lia|].
               exists j, w. rewrite lookup_insert_ne; [done|].
               intros <-. by rewrite freshId_None in Hw.
           + by apply (Hgaps_old id d d). }
    all: split; [intros j w Hw; pose proof Hw as Hw'; rewrite Hvs, lookup_insert in Hw';
                 case_decide; [subst j|]; by eapply Hone_old|].
    all: intros id d v' Hd; rewrite Hds, lookup_insert in Hd; case_decide as Hid;
           [subst id0; injection Hd as <-; by apply (Hgaps_old id d0)
           |by apply (Hgaps_old id d d)].
  - split.
    + intros j w Hw. apply (Hone_old j w w); [by rewrite <- Hvs|done].
    + intros id d v' Hd. rewrite Hds, lookup_insert in Hd. case_decide as Hid.
      * subst id0. injection Hd as <-. by apply (Hgaps_old id d0).
      * by apply (Hgaps_old id d d).
  - split.
    + intros j w Hw. apply (Hone_old j w w); [by rewrite <- Hvs|done].
    + intros id d v. rewrite Hds. intros Hd. by apply (Hgaps_old id d d).
Qed.

(** X16. In every database the server can reach, each comment is made
    on a stored document and against a stored version of that very
    document, and the [commentsCount] of each document is exactly the
    number of comments stored for it. *)
Theorem reachable_comments s :
  reachable s →
  (∀ i c, comments s !! i = Some c →
     ∃ d w, documents s !! com_document c = Some d ∧
            versions s !! com_version c = Some w ∧
            ver_document w = com_document c) ∧
  (∀ id d, documents s !! id = Some d →
     doc_commentsCount d = size (commentsOn s id)).
Proof.
  intros Hreach.
  assert (Hwf : commentsWellFormed s).
  { induction Hreach as [forms c | r s Hreach IH].
    - split; [intros i c'|intros id d]; cbn; by rewrite lookup_empty.
    - apply commentsWellFormed_serve; [by apply reachable_wellFormed|done]. }
  destruct Hwf as [Hanchored Hcounted]. split; [|done].
  intros i c Hc. destruct (Hanchored i c Hc) as [[d Hd] (w & Hw & Hwd)]. by exists d, w.
Qed.

Lemma reachable_comments_witness :
  doc_commentsCount <$> documents twoDocuments !! 0%nat
  = Some (size (commentsOn twoDocuments 0)).
Proof.
  assert (reachable twoDocuments) as Hreach
    by (repeat apply reachable_serve; apply reachable_install).
  destruct (reachable_comments twoDocuments Hreach) as [_ Hcounted].
  by rewrite <- (Hcounted 0%nat (Document_ 1 7 false None 0 1) eq_refl).
Defined.

(** X17. In every database the server can reach, version numbers start
    at 1; every version numbered above 1 carries contributions, since
    an update makes a new version only for a non-empty list; and the
    versions of a document carry every number from 1 up to the number
    of its current version, with no gap. *)
Theorem reachable_versions_numbered s :
  reachable s →
  (∀ j w, versions s !! j = Some w →
     1 ≤ ver_version w ∧ (1 < ver_version w → ver_contributions w ≠ [])) ∧
  (∀ id d, documents s !! id = Some d →
     ∃ v, versions s !! doc_currentVersion d = Some v ∧
          ∀ k, 1 ≤ k ≤ ver_version v →
               ∃ j w, versions s !! j = Some w ∧ ver_document w = id ∧ ver_version w = k).
Proof.
  intros Hreach.
  assert (Hnum : versionsNumbered s).
  { induction Hreach as [forms c | r s Hreach IH].
    - split; [intros j w|intros id d v]; cbn; by rewrite lookup_empty.
    - apply versionsNumbered_serve; [by apply reachable_wellFormed|done]. }
  destruct Hnum as [Hone Hgaps]. split.
  - intros j w Hw. destruct (Hone j w Hw) as [Hge Hiff]. split; [done|].
    intros Hgt Hnil. apply Hiff in Hnil. lia.
  - intros id d Hd.
    destruct (current_latest s (reachable_wellFormed s Hreach) id d Hd) as (v & Hv & _).
    exists v. split; [done|]. by apply (Hgaps id d v).
Qed.

Lemma reachable_versions_numbered_witness :
  ∃ j w, versions (serve (PutDocument (Some alice) 0
                            (PutBody None None None (Some openContent) (Some [0%nat])))
                         draftStore) !! j = Some w ∧
         ver_document w = 0%nat ∧ ver_version w = 1.
Proof.
  set (s := serve _ draftStore).
  assert (reachable s) as Hreach
    by (repeat apply reachable_serve; apply reachable_install).
  destruct (proj2 (reachable_versions_numbered s Hreach) 0%nat
              (Document_ 1 7 false None 1 1) eq_refl) as (v & Hv & Hgaps).
  apply (Hgaps 1). vm_compute in Hv. injection Hv as <-. by cbn.
Defined.

(** ** Listing the comments of a document *)

(** Mapping a function that only reads the database. *)
Lemma mapPromises_reads {A B} (fn : A → M B) (g : A → B) (array : list A) s :
  (∀ x, fn x s = (Returns (g x), s)) →
  mapPromises fn array s = (Returns (g <$> array), s).
Proof.
  intros Hfn. induction array as [|x array IH]; [done|].
  cbn [mapPromises]. unfold bind at 1. rewrite Hfn.
  unfold bind at 1. by rewrite IH.
Qed.

(** The like of a user on a comment, as [Like.get] finds it. *)
Lemma Like_get_liked s u c :
  ∃ like, Like.get u c s = (Returns like, s) ∧ (is_Some like ↔ liked s u c).
Proof.
  destruct (Like_get_cases s u c) as [(i & Hget & Hi) | [Hget Hnot]];
    eexists; (split; [exact Hget|]).
  - split; [intros _; by exists i | by eauto].
  - split; [by intros [? ?] | done].
Qed.

(** The listing, written out: the comments that match, each without
    its reply, with its likes counted and, for a logged-in user, the
    like of that user looked up. *)
Lemma getSomeComments_run session id query s :
  checkIfAtLeastOneQuery query = true →
  getSomeComments session id query s =
    (Returns (Listed
       ((λ p : nat * comment,
           ListedComment
             (Row p.1 (CommentListing.project false p.2))
             (size (filter (λ l : nat * like, like_comment l.2 = p.1) (likes s)))
             (match session with
              | Some u =>
                  Some (match (Like.get (user_id u) p.1 s).1 with
                        | Returns like => bool_decide (is_Some like)
                        | Throws _ => false
                        end)
              | None => None
              end) : listedComment)
        <$> map_to_list (filter (matches (listingFilter id query)) (comments s)))), s).
Proof.
  intros Hcheck. unfold getSomeComments. rewrite Hcheck. cbn [negb].
  unfold CommentListing.getAll. unfold bind at 1, gets at 1.
  unfold bind at 1.
  erewrite (mapPromises_reads _
    (λ comment : row comment,
       ListedComment comment
         (size (filter (λ l : nat * like, like_comment l.2 = _id comment) (likes s))) None));
    cycle 1.
  { intros comment. unfold LikeListing.getAll, bind, gets, ret.
    by rewrite length_fmap, length_map_to_list. }
  rewrite <- !list_fmap_compose.
  destruct session as [u|].
  - unfold bind at 1.
    erewrite (mapPromises_reads _
      (λ comment : listedComment,
         ListedComment (listed_comment comment) (listed_likes comment)
           (Some (match (Like.get (user_id u) (_id (listed_comment comment)) s).1 with
                  | Returns like => bool_decide (is_Some like)
                  | Throws _ => false
                  end))));
      cycle 1.
    { intros comment. unfold Like.get, bind, gets, ret. done. }
    unfold ret. by rewrite <- !list_fmap_compose.
  - by unfold bind, ret.
Qed.




(** X19. Every entry of the listing carries the number of likes stored
    for its comment.  For a logged-in user it also says whether that
    user has a like on the comment; for an anonymous request it says
    nothing about that. *)
Theorem getSomeComments_likes session id query s :
  is_Some (query_ids query) ∨ is_Some (query_field query) →
  ∃ results,
    getSomeComments session id query s = (Returns (Listed results), s) ∧
    ∀ e, e ∈ results →
      listed_likes e
        = size (filter (λ l : nat * like, like_comment l.2 = _id (listed_comment e)) (likes s)) ∧
      match session with
      | Some u => ∃ b, listed_isLiked e = Some b ∧
                       (b = true ↔ liked s (user_id u) (_id (listed_comment e)))
      | None => listed_isLiked e = None
      end.
Proof.
  intros Hsome.
  assert (Hcheck : checkIfAtLeastOneQuery query = true).
  { unfold checkIfAtLeastOneQuery. apply orb_true_iff.
    destruct Hsome; [left|right]; by apply bool_decide_eq_true. }
  rewrite (getSomeComments_run session id query s Hcheck).
  eexists. split; [reflexivity|].
  intros e. rewrite list_elem_of_fmap. intros ([i c] & -> & _).
  cbn [listed_likes listed_isLiked listed_comment _id fst snd].
  split; [done|]. destruct session as [u|]; [|done].
  eexists. split; [done|].
  destruct (Like_get_liked s (user_id u) i) as (like & -> & Hliked). cbn [fst].
  by rewrite bool_decide_eq_true.
Qed.

Lemma getSomeComments_likes_witness :
  ∃ results,
    getSomeComments (Some bob) 0 (CommentsQuery (Some [0%nat]) None) busyStore
      = (Returns (Listed results), busyStore) ∧
    (λ e, (listed_likes e, listed_isLiked e)) <$> results = [(2%nat, Some true)].
Proof.
  destruct (getSomeComments_likes (Some bob) 0%nat (CommentsQuery (Some [0%nat]) None)
              busyStore) as (results & Hrun & _); [left; by eexists|].
  exists results. split; [exact Hrun|].
  vm_compute in Hrun. by injection Hrun as <-.
Defined.

(** X20. Liking and listing together.  When a logged-in user who has no
    like on a comment likes it (through an existing document), the
    listing that user then gets differs from the one before in the
    entry of that comment only, if it is listed: its number of likes is
    one more, and it is marked as liked by the user. *)
Theorem like_then_list (u : user) id idComment listed query s d :
  documents s !! id = Some d →
  ¬ liked s (user_id u) idComment →
  is_Some (query_ids query) ∨ is_Some (query_field query) →
  let s1 := (likeComment (Some u) id idComment s).2 in
  ∃ before,
    getSomeComments (Some u) listed query s = (Returns (Listed before), s) ∧
    getSomeComments (Some u) listed query s1
      = (Returns (Listed
           ((λ e, if decide (_id (listed_comment e) = idComment)
                  then ListedComment (listed_comment e) (S (listed_likes e)) (Some true)
                  else e) <$> before)), s1).
Proof.
  intros Hd Hnot Hsome s1.
  assert (Hcheck : checkIfAtLeastOneQuery query = true).
  { unfold checkIfAtLeastOneQuery. apply orb_true_iff.
    destruct Hsome; [left|right]; by apply bool_decide_eq_true. }
  set (l := Like_ (user_id u) idComment).
  assert (Hlikes : likes s1 = <[freshId (likes s) := l]> (likes s)).
  { subst s1. rewrite (likeComment_create u id idComment s d Hnot Hd).
    by case_bool_decide. }
  assert (Hcomments : comments s1 = comments s).
  { subst s1. rewrite (likeComment_create u id idComment s d Hnot Hd).
    by case_bool_decide. }
  rewrite (getSomeComments_run (Some u) listed query s Hcheck).
  rewrite (getSomeComments_run (Some u) listed query s1 Hcheck).
  eexists. split; [reflexivity|].
  rewrite Hcomments, <- list_fmap_compose. do 3 f_equal.
  apply list_fmap_ext. intros k [j c] _.
  cbn [compose listed_comment listed_likes listed_isLiked _id fst snd].
  destruct (Like_get_liked s1 (user_id u) j) as (like1 & -> & Hliked1).
  destruct (Like_get_liked s (user_id u) j) as (like0 & -> & Hliked0).
  cbn [fst]. rewrite Hlikes. case_decide as Hj.
  - subst j. rewrite map_filter_insert_True by done.
    rewrite map_size_insert_None
      by (apply map_lookup_filter_None; left; apply freshId_None).
    do 2 f_equal. apply bool_decide_eq_true, Hliked1.
    exists (freshId (likes s)). by rewrite Hlikes, lookup_insert_eq.
  - rewrite map_filter_insert_False by (cbn; congruence).
    rewrite delete_id by apply freshId_None.
    do 2 f_equal. apply bool_decide_ext. rewrite Hliked1, Hliked0.
    unfold liked. rewrite Hlikes. split; intros [n Hn]; exists n.
    + rewrite lookup_insert in Hn. case_decide; [|done]. by injection Hn as [= ?].
    + rewrite lookup_insert_ne; [done|]. intros <-. by rewrite freshId_None in Hn.
Qed.

Lemma like_then_list_witness :
  ∃ before,
    getSomeComments (Some alice) 0 (CommentsQuery (Some [0%nat]) None) draftStore
      = (Returns (Listed before), draftStore) ∧
    (λ e, (listed_likes e, listed_isLiked e)) <$> before = [(0%nat, Some false)] ∧
    (getSomeComments (Some alice) 0 (CommentsQuery (Some [0%nat]) None)
       (likeComment (Some alice) 0 0 draftStore).2).1
      = Returns (Listed
          ((λ e, if decide (_id (listed_comment e) = 0%nat)
                 then ListedComment (listed_comment e) (S (listed_likes e)) (Some true)
                 else e) <$> before)).
Proof.
  destruct (like_then_list alice 0%nat 0%nat 0%nat (CommentsQuery (Some [0%nat]) None)
              draftStore (Document_ 1 7 false None 0 1) eq_refl)
    as (before & Hbefore & Hafter).
  - intros [i Hi]. revert Hi. vm_compute. by destruct i.
  - left. by eexists.
  - exists before. split; [exact Hbefore|]. split; [|by rewrite Hafter].
    vm_compute in Hbefore. by injection Hbefore as <-.
Defined.

(** ** The two copies of the comment route *)

(** X21. The other copy of the router creates comments without looking
    at the closing date.  On every request the two copies do the same,
    answer and writes alike, except that where the copy in
    [api/document.js] refuses a comment as closed, or fails because the
    current version has no content to read a closing date from, the
    other copy stores the comment. *)
Theorem createComment_copies now session id body s :
  EarlierComments.createComment session id body s = createComment now session id body s ∨
  (((createComment now session id body s).1 = Throws ErrClosed ∨
    (createComment now session id body s).1 = Throws TypeError) ∧
   (createComment now session id body s).2 = s ∧
   ∃ (u : user) d,
     session = Some u ∧ documents s !! id = Some d ∧
     EarlierComments.createComment session id body s
       = (Returns (Row (freshId (comments s))
                       (Comment_ (user_id u) id (doc_currentVersion d) (req_field body)
                                 (req_content body) (req_decoration body) false None)),
          set_documents (alter Document.incrementComments id)
            (set_comments
               <[freshId (comments s) :=
                   Comment_ (user_id u) id (doc_currentVersion d) (req_field body)
                            (req_content body) (req_decoration body) false None]> s))).
Proof.
  unfold EarlierComments.createComment, createComment, currentClosingDate, Document.get,
    CustomForm.get, Comment.create, Document.addComment.
  destruct session as [u|]; exec; [|by left].
  destruct (documents s !! id) as [d|] eqn:Hd; exec; [|by left].
  destruct (customForms s !! doc_customForm d) as [form|]; exec; [|by left].
  destruct (notFound _ _); exec; [by left|].
  destruct (versions s !! doc_currentVersion d) as [v|]; exec; [|by left].
  destruct (ver_content v) as [c|]; exec.
  - destruct (truthy (closingDate c)); [destruct (date_lt _ _)|]; exec; try by left.
    right. split; [by left|]. split; [done|]. by exists u, d.
  - right. split; [by right|]. split; [done|]. by exists u, d.
Qed.

Lemma createComment_copies_witness :
  (createComment 100 (Some bob) 0 (CommentRequest "brief" "Late" None) closingStore).1
    = Throws ErrClosed ∧
  ∃ r, (EarlierComments.createComment (Some bob) 0 (CommentRequest "brief" "Late" None)
          closingStore).1 = Returns r.
Proof.
  split; [reflexivity|].
  destruct (createComment_copies 100 (Some bob) 0%nat (CommentRequest "brief" "Late" None)
              closingStore) as [Hsame | (_ & _ & u & d & _ & _ & ->)].
  - discriminate (f_equal fst Hsame).
  - by eexists.
Defined.

(** The outbox after an accepted update, part by part. *)
Lemma putDocument_notifications_aux (u : user) id body s d v :
  documents s !! id = Some d →
  user_id u = doc_author d →
  versions s !! doc_currentVersion d = Some v →
  ∃ closing contributed,
    outbox (putDocument (Some u) id body s).2 = (closing ++ contributed ++ outbox s)%list ∧
    (closing = [] ∨ ∃ date, closing = [SetDocumentCloses id date]) ∧
    ∀ e, e ∈ contributed →
         ∃ i, e = SendEmail "comment-contribution" i ∧
              i ∈ default [] (put_contributions body).
Proof.
  intros Hd Hauthor Hv.
  destruct (putDocument_outbox u id body s d v Hd Hauthor Hv) as (s' & -> & _ & Hout).
  eexists _, _. split; [exact Hout|]. split.
  - destruct (put_content body) as [c|]; [|by left].
    destruct (truthy (closingDate c)); [right; by eexists | by left].
  - destruct (put_contributions body) as [[|contribution contributions]|];
      try by intros e ?%elem_of_nil.
    intros e. rewrite <- Permutation_rev, <- list_fmap_compose, list_elem_of_fmap.
    intros ([i c] & -> & Hic).
    apply elem_of_map_to_list, map_lookup_filter_Some in Hic as [_ Hin].
    by exists i.
Qed.

(** ** Edge cases of the comment route *)

(** X22. A comment request whose [field] is the empty string is refused
    with [ErrInvalidParam] on every existing document whose form
    resolves, even when the form lists the empty string in
    [allowComments]: the handler negates what [find] returns, and the
    empty string it finds counts as false. *)
Theorem createComment_empty_field now (u : user) id body s d form :
  documents s !! id = Some d →
  customForms s !! doc_customForm d = Some form →
  req_field body = EmptyString →
  createComment now (Some u) id body s = (Throws ErrInvalidParam, s).
Proof.
  intros Hd Hf Hfield.
  unfold createComment, Document.get, CustomForm.get.
  exec. rewrite Hd. exec. rewrite Hf. exec.
  assert (notFound (allowComments (cf_fields form)) (req_field body) = true) as ->; [|done].
  rewrite Hfield. unfold notFound.
  destruct (List.find _ _) as [x|] eqn:Hfind; [|done].
  apply List.find_some in Hfind as [_ Heq]. apply String.eqb_eq in Heq. by subst x.
Qed.

Lemma createComment_empty_field_witness :
  createComment 100 (Some bob) 0 (CommentRequest EmptyString "Where?" None) draftStore
  = (Throws ErrInvalidParam, draftStore).
Proof.
  by apply (createComment_empty_field 100 bob 0%nat _ draftStore
              (Document_ 1 7 false None 0 1) projectForm).
Defined.

(** ** What the routes send to the notifier *)

Lemma postDocument_outbox session body s :
  outbox (postDocument session body s).2 = outbox s ∨
  ∃ document,
    outbox (postDocument session body s).2
    = SetDocumentCloses document (closingDate (post_content body)) :: outbox s.
Proof.
  unfold postDocument, Community.get, Document.countAuthorDocuments, CustomForm.getBySlug,
    Document.create, notifier.setDocumentClosesNotification.
  exec. destruct session as [u|]; exec; [|by left].
  destruct (bool_decide _); exec; [by left|].
  destruct (_ <$> _) as [form|]; exec; [|by left].
  right. by eexists.
Qed.

Lemma resolveComment_outbox session id idComment s :
  outbox (resolveComment session id idComment s).2 = outbox s ∨
  outbox (resolveComment session id idComment s).2
  = SendEmail "comment-resolved" idComment :: outbox s.
Proof.
  unfold resolveComment, Document.get, Comment.resolve, notifier.sendCommentNotification,
    equals.
  exec. destruct session as [u|]; exec; [|by left].
  destruct (documents s !! id) as [d|]; exec; [|by left].
  destruct (bool_decide _); exec; [|by left].
  destruct (comments s !! idComment); [by right | by left].
Qed.

Lemma likeComment_outbox session id idComment s :
  outbox (likeComment session id idComment s).2 = outbox s ∨
  outbox (likeComment session id idComment s).2
  = SendEmail "comment-liked" idComment :: outbox s.
Proof.
  destruct session as [u|]; [|by left].
  destruct (liked_dec s (user_id u) idComment) as [Hliked | Hnot].
  - destruct (likeComment_remove u id idComment s Hliked) as (i & _ & ->). by left.
  - destruct (documents s !! id) as [d|] eqn:Hd.
    + rewrite (likeComment_create u id idComment s d Hnot Hd).
      case_bool_decide; [by right | by left].
    + rewrite (likeComment_no_document u id idComment s Hnot Hd). by left.
Qed.

(** X23. The outbox of the notifier only grows, and each route sends
    only its own kind of request: creating a document, at most one
    closing schedule with the closing date of the content sent;
    updating a document, at most one closing schedule for that document
    in front of "comment-contribution" notifications for ids among the
    contributions of the request; resolving, at most one
    "comment-resolved" for the comment; liking, at most one
    "comment-liked" for the comment.  Reading a document, creating a
    comment and replying to one send nothing. *)
Theorem serve_outbox r s :
  ∃ sent,
    outbox (serve r s) = (sent ++ outbox s)%list ∧
    match r with
    | PostDocument _ body =>
        sent = [] ∨ ∃ document, sent = [SetDocumentCloses document
                                           (closingDate (post_content body))]
    | PutDocument _ id body =>
        ∃ closing contributed,
          sent = (closing ++ contributed)%list ∧
          (closing = [] ∨ ∃ date, closing = [SetDocumentCloses id date]) ∧
          ∀ e, e ∈ contributed →
               ∃ i, e = SendEmail "comment-contribution" i ∧
                    i ∈ default [] (put_contributions body)
    | ResolveComment _ _ idComment =>
        sent = [] ∨ sent = [SendEmail "comment-resolved" idComment]
    | LikeComment _ _ idComment =>
        sent = [] ∨ sent = [SendEmail "comment-liked" idComment]
    | GetDocument _ _ _ | CreateComment _ _ _ _ | ReplyComment _ _ _ _ => sent = []
    end.
Proof.
  destruct r; cbn [serve].
  - destruct (postDocument_outbox session body s) as [-> | (document & ->)].
    + exists []. split; [done|by left].
    + eexists [_]. split; [done|]. right. by eexists.
  - exists []. by rewrite getDocument_reads.
  - destruct (putDocument_effect session id body s)
      as (_ & [-> | (u & d & v & -> & Hd & Ha & Hv & _)]).
    { exists []. split; [done|]. exists [], []. split; [done|]. split; [by left|].
      by intros e ?%elem_of_nil. }
    destruct (putDocument_notifications_aux u id body s d v Hd Ha Hv)
      as (closing & contributed & Hout & Hclosing & Hmem).
    exists (closing ++ contributed)%list. rewrite <- app_assoc. split; [done|].
    by exists closing, contributed.
  - exists []. by destruct (createComment_effect now session id body s) as (_ & _ & -> & _).
  - destruct (resolveComment_outbox session id idComment s) as [-> | ->].
    + exists []. split; [done|by left].
    + eexists [_]. split; [done|]. by right.
  - destruct (likeComment_outbox session id idComment s) as [-> | ->].
    + exists []. split; [done|by left].
    + eexists [_]. split; [done|]. by right.
  - exists []. by destruct (replyComment_effect session id idComment reply s)
      as (_ & _ & _ & -> & _).
Qed.

Lemma serve_outbox_witness :
  outbox (serve (CreateComment 100 (Some bob) 0 (CommentRequest "brief" "Again" None))
                draftStore) = outbox draftStore.
Proof.
  by destruct (serve_outbox
                 (CreateComment 100 (Some bob) 0 (CommentRequest "brief" "Again" None))
                 draftStore) as (sent & -> & ->).
Defined.
